(* ===== verification/_CoqProject ===== *)
-Q . S2P
Prelude.v
F64.v
StableSort.v
City.v
Samples.v
Loader.v
Bands.v
Ranking.v
Directional.v
Render.v
Lines.v
Client.v
Tests.v
