(* ===== verification/Prelude.v ===== *)
(** * A verification development of mastodon-toot-client's location narratives

    The repository posts a short text about a randomly chosen city to a
    Mastodon server.  All of its algorithmic content lives in
    [src/src/src/lib.rs] (with the CSV loader [src/src/data_loader.rs]);
    the two [bin/toot.rs] programs are OAuth registration and posting glue.

    ** The program and how its parts interact

    - The catalog: [data_loader::load_data] reads
      [simplemaps-worldcities-basic.csv] row by row, converts each row that
      deserialises into a [City] (the [From<Record>] impl), logs progress
      and skipped rows, and fails when no row survives.  [lib.rs] keeps the
      result in the [lazy_static] global [DATA] (initialised on first
      access, by [unwrap]), next to the two sentinel cities [NORTH_POLE]
      and [SOUTH_POLE].
    - The band filters [same_latitude] and [same_longitude] select the
      cities of [DATA] within 0.5 degree of a latitude, or of a longitude
      or its antipodal meridian ([opposite_longitude]).
    - [top_by_population] sorts by descending population with the stable
      [sort_by] and keeps ten cities.
    - [sort_easterly] and [sort_northerly] reorder the ten cities into a
      flight east along the latitude, or north along the meridian, over
      the north pole, down the antipodal meridian and back from the south.
    - [latitude_text], [longitude_text], [latitude_in_degrees],
      [longitude_in_degrees] and [location_text] render the narrative;
      [random_location] picks the city with [choose] on a random source.

    Data flow: [DATA] -> band filter -> [top_by_population] -> directional
    sort -> rendering, once per axis, for the city picked at random.

    ** The library (files of _CoqProject, in dependency order)

    - [Prelude] (this file): the [Either] type and [partition_map] of
      itertools, [join], the option (panic) monad notation in
      [panic_scope], shared list lemmas, the hint databases [geo] and [geo_rw] and the
      development's tactics.
    - [F64]: Rust [f64] as the inductive [f64] = [Num q] (a finite value,
      an exact rational) | [NaN]; the operations the code uses ([+], [-],
      [*], [%], [abs], [floor], [<], [<=], [>], [partial_cmp]) with NaN
      propagation and unordered comparisons; the setoid [feq] with its
      [Proper] instances.
    - [StableSort]: [slice::sort_by] with a comparator that may panic
      ([partial_cmp(..).unwrap()]), as a stable insertion sort in the
      option monad; its specification (permutation, sortedness,
      stability), the uniqueness theorem that makes any stable sort agree
      with it, and the exact panic condition.
    - [City]: the [City] struct, the poles, [Display], decidable equality.
    - [Samples]: a sample catalog of 23 cities (the cities the repository's
      tests name, with approximate coordinates) on which the witnesses and
      the end-to-end examples run.
    - [Loader]: module [DataLoader] holds the CSV [Record], its [From]
      conversion, and [load_data] as a loop over the deserialised rows with
      its log and its error results.  Module [LazyData] models the
      [lazy_static] cell of [DATA] (its states and one access, [deref]).
      The clients' model does not go through the cell: it loads the
      catalog once per run and passes it on.
    - [Bands]: [same_latitude], [opposite_longitude], [same_longitude];
      module [Bands.Ieee] repeats [opposite_longitude] on the kernel's
      IEEE binary64 floats ([PrimFloat]) to measure the rounding the
      rational model leaves out.
    - [Ranking]: [top_by_population].
    - [Directional]: [sort_easterly] and [sort_northerly].
    - [Render]: degrees and minutes, the two sentences, [location_text],
      and [random_location] against the [RandomSource] interface.
    - [Lines]: the toot read as lines ([split_lines]): exactly the four
      lines of [location_text] when no name holds a line feed.
    - [Client]: the two [bin/toot.rs] programs ([Client2] the newer,
      [Client1] the older) as programs of a writer and panic monad over
      a [World] of answers from the environment, the CSV file, the random
      generator, the server and the terminal; [random_location_io]
      composes [load_data], the lazy [DATA] and [random_location].
    - [Tests]: the [#[test]]s of [lib.rs] as boolean checks on the
      catalog; the tests that the sample catalog can exercise pass.

    ** Modelling choices

    - Numbers: [f64] values are exact rationals plus [NaN]; IEEE rounding,
      infinities and the sign of zero are not modelled (the dataset holds
      finite decimal degrees, and every comparison the code makes is
      strict or non-strict on values far from the precision limit).  The
      one theorem rounding would change is the round trip of
      [opposite_longitude]: it is stated where binary64 computes it
      exactly (90 <= |x| <= 180, Sterbenz's lemma), and [Bands.Ieee]
      shows the IEEE round trip failing below that.
    - The global [DATA] is an explicit argument (a [Section] variable) of
      every query: it is read-only after its first access, which [Loader]
      models separately.
    - A panic ([unwrap] on [None] or on a NaN comparison) is [None] in the
      option monad; a [Result] is the [result] type of [Loader].

    ** Plan (order of importance) and the theorem groups

    1. the directional sorts: their output shape, the reference city last
       (the invariant the rendering relies on), length and pole order;
    2. the stable sort: correctness, stability, uniqueness, panic condition;
    3. the ranking: at most ten cities, non-increasing, stable prefix;
    4. the bands: exact membership, the reference city in its own band,
       [opposite_longitude] an involution where binary64 is exact, and
       not one in IEEE on small longitudes (a finding);
    5. the rendering: truncated degrees and minutes, the hemisphere letter,
       the sentences and the duplicated reference city when fewer than ten
       cities share the band (a finding);
    6. the loader: its result, its standard error and standard output;
    7. totality: over a catalog without NaN, [location_text] and
       [random_location] never panic; a NaN population that the loader
       accepts makes [location_text] panic (a finding);
    8. the layout: the sentences list only cities of the reference's band
       (and the poles, for the longitude), and the toot has four lines when
       the catalog's names have no line feed;
    9. the clients: the stored-credentials path posts once when the world
       cooperates (liveness); in every world a client posts at most once
       and only a narrative of the catalog; the registration path follows
       the OAuth order; a missing variable panics before any call; the
       older client sends the authorisation code with its line feed (a
       finding).

    No definition takes fuel: every loop of the program is a structural
    recursion on a list (the rows, the cities of a sort), so the
    termination of each is by construction and the totality theorems are
    statements that a value is returned.

    Not modelled: the [simplemaps] CSV file the tests are written for
    (not in the repository: the tests that list whole bands or narrate
    Jaque are modelled but cannot be run); the CSV reader and serde deserialisation (a row arrives
    already parsed or failed); the inside of the [mammut] library (HTTP,
    OAuth, JSON) and of [dotenv], whose answers are the fields of
    [Client.World]; the [Debug] text of [mammut]'s structs (kept as
    events); [str::trim] beyond ASCII white space; and the thread-local
    generator of [rand::rng()] (abstracted by [RandomSource]).
*)

From Stdlib Require Import List Bool Permutation Sorted Lia String ZArith DecimalString.
Import ListNotations.

(** ** itertools' [Either] and [partition_map] *)

Inductive Either (L R : Type) : Type :=
| Left (l : L)
| Right (r : R).
Arguments Left {L R} l.
Arguments Right {L R} r.

(** [Itertools::partition_map]: one pass, each item pushed to the left or
    the right vector, in order. *)
Fixpoint partition_map {A L R : Type} (f : A -> Either L R) (l : list A)
  : list L * list R :=
  match l with
  | [] => ([], [])
  | x :: xs =>
      let '(ls, rs) := partition_map f xs in
      match f x with
      | Left y => (y :: ls, rs)
      | Right z => (ls, z :: rs)
      end
  end.

(** [Itertools::join]: the items separated by [sep]. *)
Fixpoint join (sep : string) (l : list string) : string :=
  match l with
  | [] => ""
  | [x] => x
  | x :: xs => (x ++ sep ++ join sep xs)%string
  end.

(** [Display] of an integer: its decimal digits, with a minus sign. *)
Definition string_of_nat (n : nat) : string :=
  NilZero.string_of_uint (Nat.to_uint n).
Definition string_of_Z (z : Z) : string :=
  NilZero.string_of_int (Z.to_int z).

(** ** The option monad of code that may panic *)

Declare Scope panic_scope.
Delimit Scope panic_scope with panic.
Notation "x <- m ;; k" :=
  (match m with Some x => k | None => None end)
  (at level 61, m at next level, right associativity) : panic_scope.

Create HintDb geo.
Create Rewrite HintDb geo_rw.

(** ** Shared list lemmas *)

Section Lists.
Context {A : Type}.

Lemma partition_map_split (p : A -> bool) (l : list A) :
  partition_map (fun x => if p x then Left x else Right x) l
  = (filter p l, filter (fun x => negb (p x)) l).
Proof.
  induction l as [|x xs IH]; simpl; [reflexivity|].
  rewrite IH. destruct (p x); reflexivity.
Qed.

Lemma partition_map_ext {L R : Type} (f g : A -> Either L R) (l : list A) :
  (forall x, f x = g x) -> partition_map f l = partition_map g l.
Proof.
  intros H. induction l as [|x xs IH]; simpl; [reflexivity|].
  now rewrite IH, H.
Qed.

Lemma Sorted_weaken (R S : A -> A -> Prop) (l : list A) :
  (forall x y, R x y -> S x y) -> Sorted R l -> Sorted S l.
Proof.
  intros H. induction 1 as [|x xs Hs IH Hd]; constructor; [exact IH|].
  destruct Hd; constructor. auto.
Qed.

Lemma filter_app_perm (p : A -> bool) (l : list A) :
  Permutation l (filter p l ++ filter (fun x => negb (p x)) l).
Proof.
  induction l as [|x xs IH]; simpl; [constructor|].
  destruct (p x); simpl.
  - now constructor.
  - eapply perm_trans; [apply perm_skip, IH|]. apply Permutation_middle.
Qed.

Lemma StronglySorted_app_iff (R : A -> A -> Prop) (l1 l2 : list A) :
  StronglySorted R (l1 ++ l2) <->
  StronglySorted R l1 /\ StronglySorted R l2 /\
  Forall (fun a => Forall (R a) l2) l1.
Proof.
  induction l1 as [|x xs IH]; simpl.
  - intuition (constructor || auto).
  - split.
    + intros Hs. inversion Hs as [|? ? Hs' Hx]; subst.
      apply IH in Hs' as (H1 & H2 & H3). apply Forall_app in Hx as [Hx1 Hx2].
      split; [constructor; auto|]. split; [exact H2|]. constructor; auto.
    + intros (H1 & H2 & H3). inversion H1; subst. inversion H3; subst.
      constructor; [apply IH; auto|]. apply Forall_app; auto.
Qed.

Lemma StronglySorted_rev (R : A -> A -> Prop) (l : list A) :
  StronglySorted R l -> StronglySorted (fun a b => R b a) (rev l).
Proof.
  induction 1 as [|x xs Hs IH Hx]; simpl; [constructor|].
  apply StronglySorted_app_iff. split; [exact IH|]. split.
  - repeat constructor.
  - apply Forall_forall. intros y Hy. constructor; [|constructor].
    apply in_rev in Hy. eapply Forall_forall in Hx; eauto.
Qed.

Lemma Sorted_filter (R : A -> A -> Prop) (p : A -> bool) (l : list A) :
  (forall x y z, R x y -> R y z -> R x z) ->
  Sorted R l -> Sorted R (filter p l).
Proof.
  intros Htr Hs. apply StronglySorted_Sorted.
  apply Sorted_StronglySorted in Hs; [|exact Htr].
  induction Hs as [|x xs Hs IH Hall]; simpl; [constructor|].
  destruct (p x); [|exact IH]. constructor; [exact IH|].
  apply Forall_forall. intros y Hy. apply filter_In in Hy.
  eapply Forall_forall in Hall; [exact Hall|tauto].
Qed.

Lemma Forall_filter_true (p : A -> bool) (l : list A) :
  Forall (fun x => p x = true) (filter p l).
Proof.
  apply Forall_forall. intros x Hx. apply filter_In in Hx. tauto.
Qed.

Lemma Forall_filter_of (P : A -> Prop) (f : A -> bool) (l : list A) :
  Forall P l -> Forall P (filter f l).
Proof.
  rewrite !Forall_forall. intros H x Hx. apply filter_In in Hx. apply H; tauto.
Qed.
(** Checking a hypothesis on a concrete list by computation. *)
Lemma forallb_Forall (P : A -> Prop) (f : A -> bool) (l : list A) :
  (forall x, f x = true -> P x) -> forallb f l = true -> Forall P l.
Proof.
  intros H Hf. apply Forall_forall. intros x Hx.
  apply H. rewrite forallb_forall in Hf. auto.
Qed.

Lemma in_dec_In (dec : forall x y : A, {x = y} + {x <> y}) (x : A) (l : list A) :
  (if in_dec dec x l then true else false) = true -> In x l.
Proof. destruct (in_dec dec x l); congruence. Qed.

Fixpoint nodupb (dec : forall x y : A, {x = y} + {x <> y}) (l : list A) : bool :=
  match l with
  | [] => true
  | x :: xs => (if in_dec dec x xs then false else true) && nodupb dec xs
  end.

Lemma nodupb_NoDup (dec : forall x y : A, {x = y} + {x <> y}) (l : list A) :
  nodupb dec l = true -> NoDup l.
Proof.
  induction l as [|x xs IH]; simpl; intros H; [constructor|].
  destruct (in_dec dec x xs); [discriminate|]. constructor; auto.
Qed.
End Lists.

#[export] Hint Resolve filter_app_perm Forall_filter_true : geo.
#[export] Hint Rewrite @partition_map_split @last_last : geo_rw.

(** Close a goal by evaluating it. *)
Ltac by_compute := vm_compute; reflexivity.

(** Split the boolean conjunctions and disjunctions of a hypothesis or goal
    into propositions. *)
Ltac bool_to_prop :=
  repeat match goal with
  | H : (_ && _)%bool = true |- _ => apply andb_prop in H; destruct H
  | H : (_ || _)%bool = true |- _ => apply orb_prop in H
  | |- (_ && _)%bool = true => apply andb_true_intro; split
  end.
