(* ===== verification/F64.v ===== *)
(** * Rust's [f64] as the code uses it

    A value is [Num q], a finite number kept as an exact rational, or
    [NaN].  The operations are those of [lib.rs]: [+], [-], [*] (the
    [*= -1.0] of [opposite_longitude]), [%] (Rust's truncated remainder,
    NaN for a zero divisor), [abs], [floor], the comparisons [<], [<=], [>]
    (false as soon as a NaN is involved) and [partial_cmp] ([None] on a
    NaN, which the code [unwrap]s).  IEEE rounding, infinities and the sign
    of zero are not modelled.  [feq] is numeric equality of finite values
    ([Qeq]) with NaN related to itself; every operation is [Proper] for it,
    so equal coordinates can be rewritten anywhere. *)

From Stdlib Require Import QArith Qround Qabs Lqa Lia ZArith Morphisms Setoid.
From S2P Require Import Prelude.

Inductive f64 : Set :=
| Num (q : Q)
| NaN.

Definition fadd (x y : f64) : f64 :=
  match x, y with Num a, Num b => Num (a + b) | _, _ => NaN end.

Definition fsub (x y : f64) : f64 :=
  match x, y with Num a, Num b => Num (a - b) | _, _ => NaN end.

Definition fmul (x y : f64) : f64 :=
  match x, y with Num a, Num b => Num (a * b) | _, _ => NaN end.

(** [f64::abs] *)
Definition fabs (x : f64) : f64 :=
  match x with Num a => Num (Qabs a) | NaN => NaN end.

(** [f64::floor] *)
Definition ffloor (x : f64) : f64 :=
  match x with Num a => Num (inject_Z (Qfloor a)) | NaN => NaN end.

(** Truncation toward zero, as [fmod] uses it. *)
Definition Qtrunc (q : Q) : Z := Z.quot (Qnum q) (Zpos (Qden q)).

(** Rust's [%] on [f64] (C's [fmod]): [x - trunc(x / y) * y], NaN when the
    divisor is zero. *)
Definition frem (x y : f64) : f64 :=
  match x, y with
  | Num a, Num b =>
      if Qeq_bool b 0 then NaN else Num (a - inject_Z (Qtrunc (a / b)) * b)
  | _, _ => NaN
  end.

Definition flt (x y : f64) : bool :=
  match x, y with
  | Num a, Num b => match (a ?= b)%Q with Lt => true | _ => false end
  | _, _ => false
  end.

Definition fle (x y : f64) : bool :=
  match x, y with Num a, Num b => Qle_bool a b | _, _ => false end.

Definition fgt (x y : f64) : bool := flt y x.

(** [PartialOrd::partial_cmp] *)
Definition partial_cmp (x y : f64) : option comparison :=
  match x, y with Num a, Num b => Some (a ?= b)%Q | _, _ => None end.

Definition is_nan (x : f64) : bool :=
  match x with NaN => true | Num _ => false end.

(** The number a finite value holds (0 for NaN, never used there). *)
Definition qval (x : f64) : Q :=
  match x with Num q => q | NaN => 0 end.

Declare Scope f64_scope.
Delimit Scope f64_scope with f64.
Infix "+" := fadd : f64_scope.
Infix "-" := fsub : f64_scope.
Infix "*" := fmul : f64_scope.
Infix "mod" := frem : f64_scope.
Infix "<?" := flt : f64_scope.
Infix "<=?" := fle : f64_scope.
Infix ">?" := fgt (at level 70, no associativity) : f64_scope.

(** ** Numeric equality and its morphisms *)

Definition feq (x y : f64) : Prop :=
  match x, y with
  | Num a, Num b => a == b
  | NaN, NaN => True
  | _, _ => False
  end.
Infix "=f=" := feq (at level 70, no associativity) : f64_scope.

#[export] Instance feq_equiv : Equivalence feq.
Proof.
  split.
  - intros [a|]; simpl; [reflexivity|exact I].
  - intros [a|] [b|]; simpl; auto. intros H; symmetry; exact H.
  - intros [a|] [b|] [c|]; simpl; try tauto. intros H1 H2; rewrite H1; exact H2.
Qed.

Ltac f64_cases :=
  repeat match goal with
  | x : f64 |- _ => destruct x; simpl in *
  end; try tauto.

#[export] Instance fadd_proper : Proper (feq ==> feq ==> feq) fadd.
Proof. intros x x' Hx y y' Hy. f64_cases. now rewrite Hx, Hy. Qed.

#[export] Instance fsub_proper : Proper (feq ==> feq ==> feq) fsub.
Proof. intros x x' Hx y y' Hy. f64_cases. now rewrite Hx, Hy. Qed.

#[export] Instance fmul_proper : Proper (feq ==> feq ==> feq) fmul.
Proof. intros x x' Hx y y' Hy. f64_cases. now rewrite Hx, Hy. Qed.

#[export] Instance fabs_proper : Proper (feq ==> feq) fabs.
Proof. intros x x' Hx. f64_cases. now rewrite Hx. Qed.

#[export] Instance ffloor_proper : Proper (feq ==> feq) ffloor.
Proof. intros x x' Hx. f64_cases. now rewrite (Qfloor_comp _ _ Hx). Qed.

#[export] Instance flt_proper : Proper (feq ==> feq ==> eq) flt.
Proof. intros x x' Hx y y' Hy. f64_cases. now rewrite Hx, Hy. Qed.

#[export] Instance fle_proper : Proper (feq ==> feq ==> eq) fle.
Proof. intros x x' Hx y y' Hy. f64_cases. now rewrite Hx, Hy. Qed.

#[export] Instance partial_cmp_proper : Proper (feq ==> feq ==> eq) partial_cmp.
Proof. intros x x' Hx y y' Hy. f64_cases. now rewrite Hx, Hy. Qed.

(** ** The comparisons on finite values *)

Lemma flt_Num (a b : Q) : flt (Num a) (Num b) = true <-> a < b.
Proof.
  simpl. rewrite Qlt_alt. destruct (a ?= b)%Q; split; congruence.
Qed.

Lemma flt_Num_false (a b : Q) : flt (Num a) (Num b) = false <-> b <= a.
Proof.
  pose proof (flt_Num a b). destruct (flt _ _); split; intros H'.
  - discriminate.
  - exfalso. apply (Qle_not_lt b a); tauto.
  - apply Qnot_lt_le. intuition congruence.
  - reflexivity.
Qed.

Lemma fle_Num (a b : Q) : fle (Num a) (Num b) = true <-> a <= b.
Proof. apply Qle_bool_iff. Qed.

Lemma fle_Num_false (a b : Q) : fle (Num a) (Num b) = false <-> b < a.
Proof.
  pose proof (fle_Num a b). destruct (fle _ _); split; intros H'.
  - discriminate.
  - exfalso. apply (Qlt_not_le b a); tauto.
  - apply Qnot_le_lt. intuition congruence.
  - reflexivity.
Qed.

(** Comparisons of a finite value with a constant, through its [qval]. *)
Lemma fle_finite (x : f64) (s : Q) :
  is_nan x = false -> fle x (Num s) = true <-> qval x <= s.
Proof. destruct x; [intros _; apply fle_Num|discriminate]. Qed.

Lemma fle_finite_false (x : f64) (s : Q) :
  is_nan x = false -> fle x (Num s) = false <-> s < qval x.
Proof. destruct x; [intros _; apply fle_Num_false|discriminate]. Qed.

Lemma flt_finite_r (x : f64) (s : Q) :
  is_nan x = false -> flt (Num s) x = true <-> s < qval x.
Proof. destruct x; [intros _; apply flt_Num|discriminate]. Qed.

Lemma flt_finite_r_false (x : f64) (s : Q) :
  is_nan x = false -> flt (Num s) x = false <-> qval x <= s.
Proof. destruct x; [intros _; apply flt_Num_false|discriminate]. Qed.

Lemma flt_NaN_l (y : f64) : flt NaN y = false.
Proof. reflexivity. Qed.

Lemma flt_NaN_r (x : f64) : flt x NaN = false.
Proof. destruct x; reflexivity. Qed.

Lemma partial_cmp_None (x y : f64) :
  partial_cmp x y = None <-> is_nan x = true \/ is_nan y = true.
Proof. destruct x, y; simpl; intuition congruence. Qed.

Lemma partial_cmp_Lt (a b : Q) : partial_cmp (Num a) (Num b) = Some Lt <-> a < b.
Proof. simpl. rewrite Qlt_alt. split; [congruence|intros ->; reflexivity]. Qed.

Lemma partial_cmp_Gt (a b : Q) : partial_cmp (Num a) (Num b) = Some Gt <-> b < a.
Proof. simpl. rewrite Qgt_alt. split; [congruence|intros ->; reflexivity]. Qed.

Lemma Qcompare_opp (a b : Q) : (b ?= a)%Q = (- a ?= - b)%Q.
Proof.
  destruct (Qcompare_spec b a) as [H|H|H];
    [rewrite (proj1 (Qeq_alt _ _)) | rewrite (proj1 (Qlt_alt _ _))
    | rewrite (proj1 (Qgt_alt _ _))]; auto; lra.
Qed.

Lemma partial_cmp_finite (x y : f64) :
  is_nan x = false -> is_nan y = false ->
  partial_cmp x y = Some (qval x ?= qval y)%Q.
Proof. destruct x, y; easy. Qed.

Lemma partial_cmp_finite_rev (x y : f64) :
  is_nan x = false -> is_nan y = false ->
  partial_cmp y x = Some (- qval x ?= - qval y)%Q.
Proof.
  intros Hx Hy. rewrite partial_cmp_finite by assumption.
  f_equal. apply Qcompare_opp.
Qed.

#[export] Hint Rewrite flt_NaN_l flt_NaN_r : geo_rw.

(** [Qabs] on a value of known sign, as a syntactic equality. *)
Lemma Qabs_pos_eq (q : Q) : 0 <= q -> Qabs q = q.
Proof.
  destruct q as [n d]. unfold Qle. simpl. intros H.
  unfold Qabs. rewrite Z.abs_eq by lia. reflexivity.
Qed.

Lemma Qabs_neg_eq (q : Q) : q <= 0 -> Qabs q = - q.
Proof.
  destruct q as [n d]. unfold Qle. simpl. intros H.
  unfold Qabs, Qopp. simpl. rewrite Z.abs_neq by lia. reflexivity.
Qed.

(** ** Truncation, floor and remainder on non-negative values *)

Lemma Qtrunc_nonneg (q : Q) : 0 <= q -> Qtrunc q = Qfloor q.
Proof.
  destruct q as [n d]. unfold Qtrunc, Qfloor, Qle. simpl. intros H.
  apply Z.quot_div_nonneg; lia.
Qed.

Lemma Qfloor_bounds (q : Q) : inject_Z (Qfloor q) <= q < inject_Z (Qfloor q) + 1.
Proof.
  split; [apply Qfloor_le|]. rewrite <- (inject_Z_plus _ 1). apply Qlt_floor.
Qed.

Lemma Qfloor_nonneg (q : Q) : 0 <= q -> (0 <= Qfloor q)%Z.
Proof.
  intros H. change 0%Z with (Qfloor 0). apply Qfloor_resp_le. exact H.
Qed.

(** The remainder of a non-negative value by a positive one is the value
    minus its floor multiple, in [0, y). *)
Lemma frem_nonneg (a b : Q) :
  0 <= a -> 0 < b ->
  frem (Num a) (Num b) = Num (a - inject_Z (Qfloor (a / b)) * b).
Proof.
  intros Ha Hb. simpl.
  destruct (Qeq_bool b 0) eqn:E.
  - apply Qeq_bool_iff in E. lra.
  - rewrite Qtrunc_nonneg; [reflexivity|].
    apply Qle_shift_div_l; lra.
Qed.

Lemma Qfloor_div_bounds (a b : Q) :
  0 < b -> 0 <= a - inject_Z (Qfloor (a / b)) * b < b.
Proof.
  intros Hb. destruct (Qfloor_bounds (a / b)) as [H1 H2].
  set (f := inject_Z (Qfloor (a / b))) in *.
  assert (Ha : a == (a / b) * b) by (field; lra).
  split.
  - apply (Qmult_le_r _ _ b) in H1; [|exact Hb]. lra.
  - apply (Qmult_lt_r _ _ b) in H2; [|exact Hb]. nra.
Qed.
