(* ===== verification/StableSort.v ===== *)
(** * [slice::sort_by] with a comparator that may panic

    Every sort of [lib.rs] is [v.sort_by(|a, b| x.partial_cmp(&y).unwrap())]
    on an [f64] key: a stable sort whose comparator panics on a NaN.  The
    model is the insertion sort the standard library runs on slices of at
    most 20 elements ([insertion_sort_shift_left] with [insert_tail]: the
    new element is compared with the end of the sorted prefix and shifted
    left while it is less), in the option monad of [Prelude].  The sorted
    prefix is kept reversed, so that its last element is the head.

    The comparator's contract is the class [KeyOrder]: a comparator is
    [None] exactly on NaN keys and otherwise compares a rational key.  The
    sort is proved against that interface; [Ranking] and [Directional]
    discharge it for their closures ([asc_order], [desc_order]).  The
    theorems: the sort returns on NaN-free input, and its output is a sorted
    permutation in which elements of equal key keep their input order; it
    is the only such list, so that the standard library's merge sort for
    longer slices returns the same list; it panics exactly when the input
    has two elements and a NaN key. *)

From Stdlib Require Import List Permutation Sorted QArith Lqa Lia.
From S2P Require Import Prelude F64.
Import ListNotations.
Local Open Scope panic_scope.

Section SortBy.
Context {A : Type} (compare : A -> A -> option comparison).

(** [is_less]: [compare(a, b) == Less], after the comparator's [unwrap]. *)
Definition is_less (a b : A) : option bool :=
  match compare a b with
  | Some Lt => Some true
  | Some _ => Some false
  | None => None
  end.

(** [insert_tail] on the reversed sorted prefix: [x] moves past every
    element it is less than and stops before the first it is not. *)
Fixpoint insert_tail (x : A) (rprefix : list A) : option (list A) :=
  match rprefix with
  | [] => Some [x]
  | y :: ys =>
      less <- is_less x y ;;
      if less then option_map (cons y) (insert_tail x ys)
      else Some (x :: y :: ys)
  end.

(** [insertion_sort_shift_left]: insert the elements one after the other. *)
Fixpoint insertion_sort_shift_left (rprefix rest : list A)
  : option (list A) :=
  match rest with
  | [] => Some rprefix
  | x :: xs =>
      r <- insert_tail x rprefix ;;
      insertion_sort_shift_left r xs
  end.

Definition sort_by (v : list A) : option (list A) :=
  option_map (@rev A) (insertion_sort_shift_left [] v).
End SortBy.

(** ** The comparator's contract *)

Class KeyOrder {A : Type} (compare : A -> A -> option comparison) := {
  ko_nan : A -> bool;
  ko_key : A -> Q;
  ko_none : forall a b,
    compare a b = None <-> ko_nan a = true \/ ko_nan b = true;
  ko_some : forall a b, ko_nan a = false -> ko_nan b = false ->
    compare a b = Some (ko_key a ?= ko_key b)%Q
}.

(** Ascending order of an [f64] key: [a.k.partial_cmp(&b.k)]. *)
#[export] Instance asc_order {A : Type} (key : A -> f64)
  : KeyOrder (fun a b => partial_cmp (key a) (key b)) := {|
  ko_nan a := is_nan (key a);
  ko_key a := qval (key a);
  ko_none a b := partial_cmp_None (key a) (key b);
  ko_some a b := partial_cmp_finite (key a) (key b)
|}.

(** Descending order of an [f64] key: [b.k.partial_cmp(&a.k)]. *)
#[export] Instance desc_order {A : Type} (key : A -> f64)
  : KeyOrder (fun a b => partial_cmp (key b) (key a)) := {|
  ko_nan a := is_nan (key a);
  ko_key a := - qval (key a);
  ko_none a b := iff_trans (partial_cmp_None (key b) (key a)) (or_comm _ _);
  ko_some a b Ha Hb := partial_cmp_finite_rev (key a) (key b) Ha Hb
|}.

Section Correctness.
Context {A : Type} (compare : A -> A -> option comparison).
Context `{KO : !KeyOrder compare}.

Definition finite (x : A) : Prop := ko_nan x = false.
Definition key_le (a b : A) : Prop := (ko_key a <= ko_key b)%Q.
Definition key_ge (a b : A) : Prop := (ko_key b <= ko_key a)%Q.
(** The elements whose key is [v]: one class of equal keys. *)
Definition same_key (v : Q) (x : A) : bool := Qeq_bool (ko_key x) v.

Lemma same_key_true (v : Q) (x : A) : (ko_key x == v)%Q -> same_key v x = true.
Proof. apply Qeq_bool_iff. Qed.

Lemma is_less_finite (x y : A) :
  finite x -> finite y ->
  (is_less compare x y = Some true /\ (ko_key x < ko_key y)%Q) \/
  (is_less compare x y = Some false /\ (ko_key y <= ko_key x)%Q).
Proof.
  intros Hx Hy. unfold is_less. rewrite (ko_some x y Hx Hy).
  destruct (Qcompare_spec (ko_key x) (ko_key y)) as [H|H|H];
    [right|left|right]; split; auto; lra.
Qed.

(** [insert_tail] skips the elements greater than [x] and stops before the
    first one that is not. *)
Lemma insert_tail_shape (x : A) (r : list A) :
  finite x -> Forall finite r ->
  exists skipped rest, r = skipped ++ rest /\
    insert_tail compare x r = Some (skipped ++ x :: rest) /\
    Forall (fun y => (ko_key x < ko_key y)%Q) skipped /\
    Forall (fun y => (ko_key y <= ko_key x)%Q) (firstn 1 rest).
Proof.
  intros Hx. induction 1 as [|y ys Hy Hys IH].
  - exists [], []. repeat split; constructor.
  - destruct (is_less_finite x y Hx Hy) as [[E Hlt]|[E Hge]];
      simpl; rewrite E.
    + destruct IH as (sk & rest & -> & -> & H1 & H2).
      exists (y :: sk), rest. repeat split; auto.
    + exists [], (y :: ys). repeat split; simpl; auto.
Qed.

Lemma insert_tail_sorted (x : A) (r sk rest : list A) :
  r = sk ++ rest -> StronglySorted key_ge r ->
  Forall (fun y => (ko_key x < ko_key y)%Q) sk ->
  Forall (fun y => (ko_key y <= ko_key x)%Q) (firstn 1 rest) ->
  StronglySorted key_ge (sk ++ x :: rest).
Proof.
  intros -> Hs Hsk Hr.
  apply StronglySorted_app_iff in Hs as (H1 & H2 & H3).
  apply StronglySorted_app_iff. repeat split; auto.
  - constructor; [exact H2|]. destruct rest as [|z zs]; [constructor|].
    inversion Hr; subst. inversion H2; subst. constructor; [assumption|].
    eapply Forall_impl; [|eassumption]. unfold key_ge. intros; lra.
  - eapply Forall_forall. intros y Hy. eapply Forall_forall in H3; [|exact Hy].
    constructor; [|exact H3]. eapply Forall_forall in Hsk; [|exact Hy].
    unfold key_ge. lra.
Qed.

Lemma same_key_skipped (v : Q) (x : A) (sk : list A) :
  same_key v x = true -> Forall (fun y => (ko_key x < ko_key y)%Q) sk ->
  filter (same_key v) sk = [].
Proof.
  unfold same_key. intros Hx. rewrite Qeq_bool_iff in Hx.
  induction 1 as [|y ys Hy _ IH]; simpl; [reflexivity|].
  destruct (Qeq_bool (ko_key y) v) eqn:E; [|exact IH].
  apply Qeq_bool_iff in E. lra.
Qed.

(** The class of [x] gets [x] after its earlier members; the other
    classes do not change. *)
Lemma insert_tail_stable (v : Q) (x : A) (r sk rest : list A) :
  r = sk ++ rest -> Forall (fun y => (ko_key x < ko_key y)%Q) sk ->
  filter (same_key v) (rev (sk ++ x :: rest))
  = filter (same_key v) (rev r ++ [x]).
Proof.
  intros -> Hsk. rewrite filter_app, !filter_rev, !filter_app. simpl.
  destruct (same_key v x) eqn:E.
  - rewrite (same_key_skipped v x sk E Hsk). reflexivity.
  - rewrite app_nil_r. reflexivity.
Qed.

Lemma insertion_sort_spec (r l : list A) :
  Forall finite r -> Forall finite l ->
  exists r', insertion_sort_shift_left compare r l = Some r' /\
    Permutation (rev r ++ l) (rev r') /\
    (StronglySorted key_ge r -> StronglySorted key_ge r') /\
    (forall v, filter (same_key v) (rev r') = filter (same_key v) (rev r ++ l)).
Proof.
  intros Hr Hl. revert r Hr.
  induction Hl as [|x xs Hx Hxs IH]; intros r Hr; simpl.
  - exists r. rewrite app_nil_r. repeat split; auto.
  - destruct (insert_tail_shape x r Hx Hr) as (sk & rest & Er & Ei & Hsk & Hrest).
    rewrite Ei. subst r.
    destruct (IH (sk ++ x :: rest)) as (r' & E' & Hp & Hs & Hst).
    { apply Forall_app in Hr as [H1 H2]. apply Forall_app; auto. }
    exists r'. split; [exact E'|]. split; [|split].
    + eapply perm_trans; [|exact Hp]. rewrite !rev_app_distr. simpl.
      rewrite <- !app_assoc. apply Permutation_app_head. simpl.
      apply Permutation_sym, Permutation_middle.
    + intros H. apply Hs. eapply insert_tail_sorted; eauto.
    + intros v. rewrite Hst, filter_app.
      rewrite (insert_tail_stable v x (sk ++ rest) sk rest eq_refl Hsk).
      rewrite <- filter_app, <- app_assoc. reflexivity.
Qed.

Lemma sort_by_sound (l : list A) :
  Forall finite l ->
  exists l', sort_by compare l = Some l' /\ Permutation l l' /\
    Sorted key_le l' /\
    (forall v, filter (same_key v) l' = filter (same_key v) l).
Proof.
  intros Hl.
  destruct (insertion_sort_spec [] l (Forall_nil _) Hl) as (r & E & Hp & Hs & Hst).
  exists (rev r). unfold sort_by. rewrite E. split; [reflexivity|].
  split; [exact Hp|]. split; [|exact Hst].
  apply StronglySorted_Sorted.
  apply (StronglySorted_rev key_ge). apply Hs. constructor.
Qed.

(** A sorted list is determined by its classes of equal keys. *)
Lemma sorted_classes_unique (l1 l2 : list A) :
  Sorted key_le l1 -> Sorted key_le l2 ->
  (forall v, filter (same_key v) l1 = filter (same_key v) l2) -> l1 = l2.
Proof.
  assert (Htr : Relations_1.Transitive key_le)
    by (unfold key_le; intros a b c H1 H2; lra).
  intros H1 H2. apply (Sorted_StronglySorted Htr) in H1, H2.
  revert l2 H2. induction H1 as [|x r1 Hr1 IH Hx]; intros l2 H2 Hf.
  - destruct l2 as [|y r2]; [reflexivity|].
    specialize (Hf (ko_key y)). simpl in Hf.
    rewrite same_key_true in Hf by reflexivity. discriminate.
  - destruct H2 as [|y r2 Hr2 Hy].
    + specialize (Hf (ko_key x)). simpl in Hf.
      rewrite same_key_true in Hf by reflexivity. discriminate.
    + assert (Hmem : forall a b l (Hl : Forall (key_le a) l),
                 filter (same_key (ko_key b)) (a :: l) <> [] ->
                 (ko_key a <= ko_key b)%Q).
      { intros a b l Hl Hne. simpl in Hne.
        destruct (same_key _ a) eqn:Ea.
        - unfold same_key in Ea. apply Qeq_bool_iff in Ea. lra.
        - destruct (filter _ l) as [|z zs] eqn:Ez; [congruence|].
          assert (Hz : In z (filter (same_key (ko_key b)) l))
            by (rewrite Ez; left; reflexivity).
          apply filter_In in Hz as [Hz Hzk]. unfold same_key in Hzk.
          apply Qeq_bool_iff in Hzk.
          eapply Forall_forall in Hl; [|exact Hz]. unfold key_le in Hl. lra. }
      assert (Hxx : filter (same_key (ko_key x)) (x :: r1) <> []).
      { simpl. rewrite same_key_true by reflexivity. discriminate. }
      assert (Hyy : filter (same_key (ko_key y)) (y :: r2) <> []).
      { simpl. rewrite same_key_true by reflexivity. discriminate. }
      pose proof (Hmem y x r2 Hy ltac:(rewrite <- Hf; exact Hxx)) as Hyx.
      pose proof (Hmem x y r1 Hx ltac:(rewrite Hf; exact Hyy)) as Hxy.
      assert (Exy : x = y).
      { specialize (Hf (ko_key x)). simpl in Hf.
        rewrite (same_key_true _ x), (same_key_true _ y) in Hf by lra.
        congruence. }
      subst y. f_equal. apply IH; [exact Hr2|]. intros v.
      specialize (Hf v). simpl in Hf.
      destruct (same_key v x); [congruence|exact Hf].
Qed.

(** C11: any sorted list with the input's classes of equal keys is the
    output of [sort_by]: every stable sort (the standard library's merge
    sort of longer slices included) agrees with this one. *)
Theorem sort_by_unique (l l' : list A) :
  Forall finite l -> Sorted key_le l' ->
  (forall v, filter (same_key v) l' = filter (same_key v) l) ->
  sort_by compare l = Some l'.
Proof.
  intros Hl Hs Hf.
  destruct (sort_by_sound l Hl) as (s & E & _ & Hs' & Hf').
  rewrite E. f_equal. apply sorted_classes_unique; auto.
  intros v. rewrite Hf, Hf'. reflexivity.
Qed.

Lemma insertion_sort_nan (r l : list A) :
  r <> [] -> (exists x, In x l /\ ko_nan x = true) ->
  insertion_sort_shift_left compare r l = None.
Proof.
  revert r. induction l as [|x xs IH]; intros r Hr (z & Hz & Hn);
    [destruct Hz|].
  destruct r as [|y ys]; [congruence|]. cbn [insertion_sort_shift_left].
  destruct Hz as [<-|Hz].
  - cbn [insert_tail]. unfold is_less. rewrite (proj2 (ko_none x y)) by auto. reflexivity.
  - destruct (insert_tail compare x (y :: ys)) as [r'|] eqn:E; [|reflexivity].
    apply IH; [|eauto]. destruct r'; [|congruence].
    simpl in E. destruct (is_less compare x y) as [[]|]; try discriminate.
    destruct (insert_tail compare x ys); discriminate.
Qed.

Lemma sort_by_none_iff (l : list A) :
  sort_by compare l = None <->
  (2 <= length l)%nat /\ exists x, In x l /\ ko_nan x = true.
Proof.
  split.
  - intros E. destruct (existsb ko_nan l) eqn:En.
    + apply existsb_exists in En as (x & Hx & Hn). split; [|eauto].
      destruct l as [|a [|b l]]; simpl in *; try lia; try tauto.
      unfold sort_by in E. simpl in E. discriminate.
    + assert (Hf : Forall finite l).
      { apply Forall_forall. intros x Hx. unfold finite.
        destruct (ko_nan x) eqn:Ex; [|reflexivity]. rewrite <- En.
        symmetry. apply existsb_exists. eauto. }
      destruct (sort_by_sound l Hf) as (l' & E' & _). congruence.
  - intros (Hlen & Hnan). unfold sort_by.
    destruct l as [|a [|b l]]; simpl in Hlen; try lia.
    change (insertion_sort_shift_left compare [] (a :: b :: l))
      with (insertion_sort_shift_left compare [a] (b :: l)).
    destruct (ko_nan a) eqn:Ea.
    + cbn [insertion_sort_shift_left insert_tail]. unfold is_less. rewrite (proj2 (ko_none b a)) by auto. reflexivity.
    + rewrite insertion_sort_nan; [reflexivity|congruence|].
      destruct Hnan as (x & [<-|Hx] & Hn); [congruence|eauto].
Qed.
(** C10: on a NaN-free input [sort_by] returns a sorted permutation of
    it in which each class of equal keys keeps its input order. *)
Theorem sort_by_correct (l : list A) :
  Forall finite l ->
  exists l', sort_by compare l = Some l' /\ Permutation l l' /\
    Sorted key_le l' /\
    (forall v, filter (same_key v) l' = filter (same_key v) l).
Proof. apply sort_by_sound. Qed.

(** C12: [sort_by] panics exactly when the slice has two elements and a
    NaN key: every element is compared once the slice has two. *)
Theorem sort_by_panics (l : list A) :
  sort_by compare l = None <->
  (2 <= length l)%nat /\ exists x, In x l /\ ko_nan x = true.
Proof. apply sort_by_none_iff. Qed.
End Correctness.

(** ** The maximum of a sorted list *)

(** ** Whatever the comparator, a sort that returns permutes its input *)

Section SortPerm.
Context {A : Type} (compare : A -> A -> option comparison).

Lemma insert_tail_perm (x : A) (r r' : list A) :
  insert_tail compare x r = Some r' -> Permutation (x :: r) r'.
Proof.
  revert r'. induction r as [|y ys IH]; simpl; intros r' E.
  - injection E as <-. reflexivity.
  - destruct (is_less compare x y) as [[|]|]; [|injection E as <-; reflexivity|discriminate].
    destruct (insert_tail compare x ys) as [r1|] eqn:E1; simpl in E; [|discriminate].
    injection E as <-. rewrite perm_swap. constructor. apply IH. reflexivity.
Qed.

Lemma insertion_sort_perm (r l r' : list A) :
  insertion_sort_shift_left compare r l = Some r' -> Permutation (l ++ r) r'.
Proof.
  revert r. induction l as [|x xs IH]; simpl; intros r E.
  - injection E as <-. reflexivity.
  - destruct (insert_tail compare x r) as [r1|] eqn:E1; [|discriminate].
    apply IH in E. apply insert_tail_perm in E1.
    rewrite <- E, <- E1. apply Permutation_middle.
Qed.

Lemma sort_by_perm (v out : list A) :
  sort_by compare v = Some out -> Permutation v out.
Proof.
  unfold sort_by. destruct (insertion_sort_shift_left compare [] v) as [r|] eqn:E;
    simpl; intros H; [|discriminate].
  injection H as <-. apply insertion_sort_perm in E. rewrite app_nil_r in E.
  rewrite E. apply Permutation_rev.
Qed.
End SortPerm.

Section SortedMax.
Context {A : Type} (k : A -> Q).
Context (eq_dec : forall a b : A, {a = b} + {a <> b}).

(** In a list sorted by [k], an element whose key exceeds every other
    element's is the last one. *)
Lemma sorted_max_last (l : list A) (c : A) :
  Sorted (fun a b => (k a <= k b)%Q) l -> In c l ->
  (forall d, In d l -> d <> c -> (k d < k c)%Q) ->
  exists init, l = init ++ [c].
Proof.
  induction 1 as [|x r Hr IH Hd]; intros Hc Hmax; [destruct Hc|].
  destruct (in_dec eq_dec c r) as [Hin|Hout].
  - destruct IH as (init & ->); [exact Hin|intros d Hd'; apply Hmax; right; exact Hd'|].
    exists (x :: init). reflexivity.
  - destruct Hc as [<-|Hc]; [|contradiction].
    destruct r as [|y r]; [exists []; reflexivity|].
    apply HdRel_inv in Hd.
    assert (Hy : y <> x) by (intros ->; apply Hout; left; reflexivity).
    specialize (Hmax y (or_intror (or_introl eq_refl)) Hy). lra.
Qed.
(** Checking on a concrete list that no element but [c] has [c]'s key. *)
Lemma unique_key_check (l : list A) (c : A) :
  forallb (fun d => if eq_dec d c then true else negb (Qeq_bool (k d) (k c))) l = true ->
  forall d, In d l -> d <> c -> ~ (k d == k c)%Q.
Proof.
  rewrite forallb_forall. intros H d Hd Hne Heq. specialize (H d Hd).
  destruct (eq_dec d c); [contradiction|].
  rewrite (proj2 (Qeq_bool_iff _ _) Heq) in H. discriminate.
Qed.
End SortedMax.

#[export] Hint Resolve sort_by_sound : geo.

(** ** Witnesses on a list of floats *)

Lemma sort_by_correct_witness :
  exists l', sort_by (fun a b => partial_cmp a b) [Num 3; Num 1; Num 2] = Some l' /\
    Permutation [Num 3; Num 1; Num 2] l' /\
    Sorted (key_le (fun a b => partial_cmp a b)) l' /\
    (forall v, filter (same_key (fun a b => partial_cmp a b) v) l'
               = filter (same_key (fun a b => partial_cmp a b) v) [Num 3; Num 1; Num 2]).
Proof.
  apply (sort_by_correct (fun a b => partial_cmp a b) (KO := asc_order (fun x => x))).
  repeat constructor.
Defined.

Lemma sort_by_unique_witness :
  sort_by (fun a b => partial_cmp a b) [Num 2; Num 1] = Some [Num 1; Num 2].
Proof.
  apply (sort_by_unique (fun a b => partial_cmp a b) (KO := asc_order (fun x => x))).
  - repeat constructor.
  - repeat constructor. unfold key_le. simpl. lra.
  - intros v. unfold same_key. simpl.
    destruct (Qeq_bool 1 v) eqn:E1, (Qeq_bool 2 v) eqn:E2; try reflexivity.
    apply Qeq_bool_iff in E1, E2. lra.
Defined.
