(* ===== verification/City.v ===== *)
(** * The [City] struct and the two sentinel cities

    [City] is the struct of [lib.rs] (name, coordinates, population,
    country, province); [Display] prints the name.  [NORTH_POLE] and
    [SOUTH_POLE] are the two [lazy_static] sentinels that only the
    longitude narrative uses. *)

From Stdlib Require Import String QArith ZArith.
From S2P Require Import Prelude F64.
Local Open Scope string_scope.

Record City : Set := {
  name : string;
  latitude : f64;
  longitude : f64;
  population : f64;
  country : string;
  province : string
}.

(** [impl fmt::Display for City]: [write!(f, "{}", self.name)]. *)
Definition city_display (c : City) : string := name c.

Definition NORTH_POLE : City := {|
  name := "North Pole";
  latitude := Num 90;
  longitude := Num 0;
  population := Num 0;
  country := "North Pole";
  province := "North Pole"
|}.

Definition SOUTH_POLE : City := {|
  name := "South Pole";
  latitude := Num (-90);
  longitude := Num 0;
  population := Num 0;
  country := "Antarctica";
  province := "South Pole"
|}.

(** Decidable equality of the model's values. *)
Definition f64_eq_dec (x y : f64) : {x = y} + {x <> y}.
Proof.
  decide equality. destruct q as [n d], q0 as [n' d'].
  destruct (Z.eq_dec n n'), (Pos.eq_dec d d'); subst;
    [left; reflexivity|right; congruence ..].
Defined.

Definition city_eq_dec (a b : City) : {a = b} + {a <> b}.
Proof. decide equality; auto using string_dec, f64_eq_dec. Defined.

(** A city whose coordinates and population are numbers (no NaN). *)
Definition finite_city (c : City) : bool :=
  negb (is_nan (latitude c) || is_nan (longitude c) || is_nan (population c)).
