(* ===== verification/Samples.v ===== *)
(** * A sample catalog

    Cities of the repository's tests with approximate coordinates and
    populations (not the CSV file, which is not part of the sources): the
    ten cities the tests expect in Pittsburgh's latitude band, the ten of
    its longitude band, Jaque, and a few smaller cities.  The witnesses of
    the theorems and the end-to-end examples run on it. *)

From Stdlib Require Import String List QArith.
From S2P Require Import Prelude F64 City.
Import ListNotations.
Local Open Scope string_scope.

Definition mk (n : string) (lat lon pop : Q) (ctry prov : string) : City :=
  {| name := n; latitude := Num lat; longitude := Num lon; population := Num pop;
     country := ctry; province := prov |}.

Definition Pittsburgh := mk "Pittsburgh" 40.4299986 (-79.99998539) 1703266
  "United States of America" "Pennsylvania".
Definition Jaque := mk "Jaque" 7.518958353 (-78.16601465) 2000 "Panama" "Darién".

Definition SAMPLE_DATA : list City := [
  mk "New York" 40.6943 (-73.9249) 19354922 "United States of America" "New York";
  mk "Philadelphia" 40.0077 (-75.1339) 5695253 "United States of America" "Pennsylvania";
  mk "Madrid" 40.4 (-3.6834) 5567000 "Spain" "Comunidad de Madrid";
  mk "Miami" 25.7839 (-80.2102) 5764007 "United States of America" "Florida";
  mk "Guayaquil" (-2.22) (-79.92) 2514379 "Ecuador" "Guayas";
  mk "George Town" 5.4136 100.3294 2500000 "Malaysia" "Pulau Pinang";
  mk "Baku" 40.3953 49.8622 2122300 "Azerbaijan" "Baki";
  mk "Naples" 40.84 14.245 2000000 "Italy" "Campania";
  Pittsburgh;
  mk "Datong" 40.08 113.3 1462839 "China" "Shanxi";
  mk "Bursa" 40.2 29.07 1412701 "Turkey" "Bursa";
  mk "Fort Lauderdale" 26.1412 (-80.1464) 1400000 "United States of America" "Florida";
  mk "Jinxi" 40.7503 120.83 1350000 "China" "Liaoning";
  mk "Hohhot" 40.82 111.66 1250000 "China" "Nei Mongol";
  mk "Padang" (-0.96) 100.36 900000 "Indonesia" "Sumatera Barat";
  mk "Panama City" 8.968 (-79.533) 880000 "Panama" "Panama";
  mk "West Palm Beach" 26.7469 (-80.1316) 700000 "United States of America" "Florida";
  mk "Hamilton" 43.2504 (-79.83) 690000 "Canada" "Ontario";
  mk "Chiclayo" (-6.7629) (-79.8366) 600000 "Peru" "Lambayeque";
  mk "Erie" 42.1168 (-80.0733) 140000 "United States of America" "Pennsylvania";
  mk "Altoona" 40.5082 (-78.4007) 81000 "United States of America" "Pennsylvania";
  mk "Beaver Falls" 40.762 (-80.3226) 30000 "United States of America" "Pennsylvania";
  Jaque
].
