(* ===== verification/Loader.v ===== *)
(** * [data_loader::load_data] and the lazy global [DATA]

    [load_data] opens the CSV file, prints a header, walks the deserialised
    rows with their index, pushes the city of every row that deserialised
    (printing progress every thousand rows) and reports every other row on
    standard error; it fails when the file cannot be opened or when no row
    survived.  The CSV reader and serde are not modelled: a row arrives as
    [Ok record] or as [Err] with the [Debug] text of its error.  The model
    returns the [Result] together with the printed lines, in order.

    [DATA] is [lazy_static! { static ref DATA = load_data().unwrap(); }]:
    the cell [LazyData.Lazy] runs its initialiser on the first access only,
    and a panic of the initialiser poisons it; [derefs] runs a sequence of
    accesses, and [derefs_first] shows that every access answers as the
    first one did.  The clients' model ([Client.random_location_io]) loads
    the catalog once per run and passes it on, which is what the cell
    guarantees; it does not go through [deref]. *)

From Stdlib Require Import String List Lia Ascii.
From S2P Require Import Prelude F64 City.
Import ListNotations.

(** [Result<T, E>] *)
Inductive result (T E : Type) : Type :=
| Ok (v : T)
| Err (e : E).
Arguments Ok {T E} v.
Arguments Err {T E} e.

Module DataLoader.

(** [struct Record], the deserialised CSV row. *)
Record CsvRecord : Set := {
  city : string;
  _city_ascii : string;
  latitude : f64;
  longitude : f64;
  population : f64;
  country : string;
  _iso2 : string;
  _iso3 : string;
  province : string
}.

(** [impl From<Record> for City] *)
Definition from_record (record : CsvRecord) : City := {|
  City.name := city record;
  City.latitude := latitude record;
  City.longitude := longitude record;
  City.population := population record;
  City.country := country record;
  City.province := province record
|}.

Inductive Stream : Set := Stdout | Stderr.

(** The vector of cities being built and the lines printed so far. *)
Record LoadState : Set := {
  cities : list City;
  log : list (Stream * string)
}.

Definition file_path : string := "./simplemaps-worldcities-basic.csv"%string.

(** The double quote with which [Debug] prints a path. *)
Definition dquote : string :=
  String (Ascii false true false false false true false false) EmptyString.

(** One iteration of [for (index, result) in rdr.deserialize().enumerate()]. *)
Definition load_row (st : LoadState) (index : nat)
    (row : result CsvRecord string) : LoadState :=
  match row with
  | Ok record =>
      let cities' := cities st ++ [from_record record] in
      if Nat.eqb (Nat.modulo index 1000) 0 then
        {| cities := cities';
           log := log st ++ [(Stdout, "Processed " ++ string_of_nat (index + 1)
                                    ++ " records...")%string] |}
      else {| cities := cities'; log := log st |}
  | Err e =>
      {| cities := cities st;
         log := log st ++ [(Stderr, "Error deserializing row "
                                  ++ string_of_nat index ++ ": " ++ e)%string] |}
  end.

Fixpoint load_rows (st : LoadState) (index : nat)
    (rows : list (result CsvRecord string)) : LoadState :=
  match rows with
  | [] => st
  | row :: rest => load_rows (load_row st index row) (S index) rest
  end.

(** What [File::open] gives: the rows the reader will yield, or the
    [Display] text of the I/O error. *)
Inductive FileOpen : Set :=
| Opened (rows : list (result CsvRecord string))
| OpenFailed (e : string).

(** [println!("=== Reading data from file: {:?} ===", file_path)] *)
Definition reading_header : Stream * string :=
  (Stdout, "=== Reading data from file: " ++ dquote ++ file_path ++ dquote ++ " ===")%string.

Definition load_data (file : FileOpen)
  : result (list City) string * list (Stream * string) :=
  match file with
  | OpenFailed e =>
      (Err ("Failed to open file " ++ file_path ++ ": " ++ e)%string, [])
  | Opened rows =>
      let st := load_rows {| cities := []; log := [reading_header] |} 0 rows in
      match cities st with
      | [] => (Err "No valid city data found in CSV file."%string, log st)
      | cs => (Ok cs, log st ++ [(Stdout, " === Successfully loaded "
                                ++ string_of_nat (length cs) ++ " cities ===")%string])
      end
  end.

(** ** What the loop keeps and reports *)

(** The records of the rows that deserialised, in order. *)
Fixpoint ok_records (rows : list (result CsvRecord string)) : list CsvRecord :=
  match rows with
  | [] => []
  | Ok r :: rest => r :: ok_records rest
  | Err _ :: rest => ok_records rest
  end.

(** The diagnostics of the rows that failed, from index [i] on. *)
Fixpoint row_errors (i : nat) (rows : list (result CsvRecord string))
  : list (Stream * string) :=
  match rows with
  | [] => []
  | Ok _ :: rest => row_errors (S i) rest
  | Err e :: rest =>
      (Stderr, "Error deserializing row " ++ string_of_nat i ++ ": " ++ e)%string
      :: row_errors (S i) rest
  end.

(** The progress lines of the rows from index [i] on: one for each row
    that deserialised at an index divisible by 1000. *)
Fixpoint progress_lines (i : nat) (rows : list (result CsvRecord string))
  : list (Stream * string) :=
  match rows with
  | [] => []
  | Ok _ :: rest =>
      if Nat.eqb (Nat.modulo i 1000) 0
      then (Stdout, "Processed " ++ string_of_nat (i + 1) ++ " records...")%string
           :: progress_lines (S i) rest
      else progress_lines (S i) rest
  | Err _ :: rest => progress_lines (S i) rest
  end.

Definition is_stderr (line : Stream * string) : bool :=
  match fst line with Stderr => true | Stdout => false end.

Lemma load_rows_cities (st : LoadState) (i : nat) rows :
  cities (load_rows st i rows) = cities st ++ map from_record (ok_records rows).
Proof.
  revert st i. induction rows as [|[r|e] rows IH]; intros st i; simpl.
  - now rewrite app_nil_r.
  - rewrite IH. unfold load_row.
    destruct (Nat.eqb _ 0); simpl; now rewrite <- app_assoc.
  - rewrite IH. reflexivity.
Qed.

Lemma load_rows_errors (st : LoadState) (i : nat) rows :
  filter is_stderr (log (load_rows st i rows))
  = filter is_stderr (log st) ++ row_errors i rows.
Proof.
  revert st i. induction rows as [|[r|e] rows IH]; intros st i; simpl.
  - now rewrite app_nil_r.
  - rewrite IH. unfold load_row.
    destruct (Nat.eqb _ 0); simpl; rewrite ?filter_app; simpl;
      now rewrite ?app_nil_r.
  - rewrite IH. simpl. rewrite filter_app, <- app_assoc. reflexivity.
Qed.
Lemma load_rows_stdout (st : LoadState) (i : nat) rows :
  filter (fun l => negb (is_stderr l)) (log (load_rows st i rows))
  = filter (fun l => negb (is_stderr l)) (log st) ++ progress_lines i rows.
Proof.
  revert st i. induction rows as [|[r|e] rows IH]; intros st i; simpl.
  - now rewrite app_nil_r.
  - rewrite IH. unfold load_row.
    destruct (Nat.eqb _ 0); simpl; rewrite ?filter_app; simpl;
      now rewrite ?app_nil_r, <- ?app_assoc.
  - rewrite IH. simpl. rewrite filter_app, <- app_assoc. reflexivity.
Qed.

(** C23: [load_data] fails with its message when no row deserialised and
    otherwise returns the cities of the rows that did, in file order; a
    file that cannot be opened is an error with the I/O message. *)
Theorem load_data_result (file : FileOpen) :
  fst (load_data file) =
  match file with
  | OpenFailed e => Err ("Failed to open file " ++ file_path ++ ": " ++ e)%string
  | Opened rows =>
      match ok_records rows with
      | [] => Err "No valid city data found in CSV file."%string
      | recs => Ok (map from_record recs)
      end
  end.
Proof.
  destruct file as [rows|e]; [|reflexivity]. simpl.
  rewrite load_rows_cities. simpl.
  destruct (ok_records rows); reflexivity.
Qed.

(** C24: every row that failed to deserialise is reported once on
    standard error, with its index, in file order, and nothing else is. *)
Theorem load_data_stderr (rows : list (result CsvRecord string)) :
  filter is_stderr (snd (load_data (Opened rows))) = row_errors 0 rows.
Proof.
  unfold load_data.
  match goal with |- context [load_rows ?s 0 rows] =>
    pose proof (load_rows_errors s 0 rows) as H;
    set (st := load_rows s 0 rows) in * end.
  destruct (cities st); cbn [snd]; rewrite ?filter_app, H; simpl;
    rewrite ?app_nil_r; reflexivity.
Qed.
(** C29: the standard output of [load_data] is the header, one progress
    line for each row that deserialised at an index divisible by 1000
    (numbered by row, failed rows included), and the count of cities when
    there is one. *)
Theorem load_data_stdout (rows : list (result CsvRecord string)) :
  filter (fun l => negb (is_stderr l)) (snd (load_data (Opened rows)))
  = reading_header :: progress_lines 0 rows ++
    match ok_records rows with
    | [] => []
    | recs => [(Stdout, " === Successfully loaded " ++ string_of_nat (length recs)
                ++ " cities ===")%string]
    end.
Proof.
  unfold load_data. rewrite load_rows_cities. cbn [cities app].
  destruct (ok_records rows) as [|r rs]; cbn [map snd];
    rewrite ?filter_app, load_rows_stdout; cbn [map length log filter is_stderr fst negb app];
    rewrite ?app_nil_r, ?length_map; reflexivity.
Qed.
End DataLoader.

Module LazyData.

(** The state of a [lazy_static] cell. *)
Inductive Lazy (T : Type) : Type :=
| Uninit
| Ready (v : T)
| Poisoned.
Arguments Uninit {T}.
Arguments Ready {T} v.
Arguments Poisoned {T}.

(** One [Deref] of the cell: the first access runs the initialiser
    ([load_data().unwrap()], whose outcome is [init]); a panic there
    poisons the cell, and every later access panics too. *)
Definition deref {T E : Type} (init : result T E) (cell : Lazy T)
  : option T * Lazy T :=
  match cell with
  | Uninit =>
      match init with
      | Ok v => (Some v, Ready v)
      | Err _ => (None, Poisoned)
      end
  | Ready v => (Some v, Ready v)
  | Poisoned => (None, Poisoned)
  end.

(** A sequence of accesses; [inits] gives, for each access, what the
    initialiser would return were it run then (the file may change). *)
Fixpoint derefs {T E : Type} (inits : list (result T E)) (cell : Lazy T)
  : list (option T) * Lazy T :=
  match inits with
  | [] => ([], cell)
  | i :: rest =>
      let '(o, cell') := deref i cell in
      let '(os, cell'') := derefs rest cell' in
      (o :: os, cell'')
  end.

(** Once the cell has left [Uninit] it never changes. *)
Lemma derefs_settled {T E : Type} (inits : list (result T E)) (cell : Lazy T) :
  cell <> Uninit ->
  derefs inits cell
  = (map (fun _ => match cell with Ready v => Some v | _ => None end) inits, cell).
Proof.
  intros Hc. induction inits as [|i rest IH]; simpl; [reflexivity|].
  destruct cell as [|v|]; [congruence| |]; simpl; rewrite IH; reflexivity.
Qed.

(** The initialiser runs at the first access only: every access of a
    fresh cell returns what the first one returned, whatever the
    initialiser would give later. *)
Theorem derefs_first {T E : Type} (inits : list (result T E)) :
  Forall (fun o => o = hd None (fst (derefs inits Uninit)))
         (fst (derefs inits Uninit)).
Proof.
  destruct inits as [|i rest]; simpl; [constructor|].
  destruct i as [v|e]; simpl;
    rewrite derefs_settled by discriminate; simpl;
    constructor; [reflexivity| |reflexivity|];
    apply Forall_forall; intros o Ho; apply in_map_iff in Ho as (? & <- & _);
    reflexivity.
Qed.
End LazyData.
