(* ===== verification/Bands.v ===== *)
(** * The band filters of [lib.rs]

    [same_latitude] keeps the cities of [DATA] strictly within
    [LATITUDE_TOLERANCE] of a latitude; [same_longitude] those strictly
    within [LONGITUDE_TOLERANCE] of a longitude or of its
    [opposite_longitude], the meridian on the other side of the globe.
    [DATA] is the [Section] variable: the filters read the global, in its
    order, and never change it.  The theorems give the exact membership of
    each band (the bands are open intervals, do not wrap around the
    antimeridian, and are empty for a NaN reference), that a city with a
    finite coordinate lies in its own band, and how far the round trip of
    [opposite_longitude] holds.  [f64] is exact rational arithmetic, which
    IEEE agrees with on the round trip only where Sterbenz's lemma makes
    both subtractions exact (90 <= |x| <= 180); module [Ieee] models the
    function on the kernel's binary64 floats to show the rounding below
    that. *)

From Stdlib Require Import String List Bool QArith Qabs Lqa.
From Stdlib Require PrimFloat.
From S2P Require Import Prelude F64 City Samples.
Import ListNotations.
Local Open Scope f64_scope.

Definition LATITUDE_TOLERANCE : f64 := Num 0.5.
Definition LONGITUDE_TOLERANCE : f64 := Num 0.5.

Definition opposite_longitude (long : f64) : f64 :=
  let opposite_long := Num 180 - fabs long in
  if long >? Num 0 then opposite_long * Num (-1) else opposite_long.

(** [opposite_longitude] on IEEE binary64, each operation rounded. *)
Module Ieee.
Import PrimFloat.
Local Open Scope float_scope.

Definition opposite_longitude_ieee (long : float) : float :=
  let opposite_long := 180 - abs long in
  if 0 <? long then opposite_long * (-1) else opposite_long.

(** The double nearest 0.1. *)
Definition tenth : float := 0x1.999999999999ap-4.
(** The double [-100.0]. *)
Definition minus_hundred : float := -100.
End Ieee.

(** The closure of [same_latitude]. *)
Definition in_latitude_band (lat : f64) (city : City) : bool :=
  (latitude city <? lat + LATITUDE_TOLERANCE) &&
  (lat - LATITUDE_TOLERANCE <? latitude city).

(** The closure of [same_longitude], given the opposite longitude. *)
Definition in_longitude_band (long opposite_long : f64) (city : City) : bool :=
  ((longitude city <? long + LONGITUDE_TOLERANCE) &&
   (long - LONGITUDE_TOLERANCE <? longitude city)) ||
  ((longitude city <? opposite_long + LONGITUDE_TOLERANCE) &&
   (opposite_long - LONGITUDE_TOLERANCE <? longitude city)).

Section Bands.
Variable DATA : list City.

Definition same_latitude (lat : f64) : list City :=
  filter (in_latitude_band lat) DATA.

Definition same_longitude (long : f64) : list City :=
  let opposite_long := opposite_longitude long in
  filter (in_longitude_band long opposite_long) DATA.
End Bands.

(** ** Open intervals *)

(** [x] is strictly within half a degree of [center]. *)
Definition within_half (center x : f64) : Prop :=
  exists a b, center = Num a /\ x = Num b /\ a - 0.5 < b < a + 0.5.

Lemma open_band_iff (center x : f64) :
  ((x <? center + Num 0.5) && (center - Num 0.5 <? x))%bool = true <->
  within_half center x.
Proof.
  unfold within_half. destruct center as [a|], x as [b|]; simpl fadd; simpl fsub.
  - rewrite andb_true_iff, !flt_Num. split.
    + intros [H1 H2]. exists a, b. repeat split; lra.
    + intros (a' & b' & Ea & Eb & H). injection Ea as <-. injection Eb as <-.
      split; lra.
  - split; [discriminate|]. intros (? & ? & _ & E & _); discriminate.
  - rewrite andb_false_r. split; [discriminate|].
    intros (? & ? & E & _); discriminate.
  - split; [discriminate|]. intros (? & ? & E & _); discriminate.
Qed.

Lemma within_half_self (x : f64) : is_nan x = false -> within_half x x.
Proof.
  destruct x as [a|]; [|discriminate]. intros _. exists a, a. repeat split; lra.
Qed.

#[export] Hint Resolve within_half_self : geo.

(** C16: a city is in the latitude band of [lat] exactly when it is a city
    of [DATA] whose latitude is strictly within 0.5 degree of [lat]; the
    band keeps [DATA]'s order. *)
Theorem same_latitude_iff (DATA : list City) (lat : f64) (c : City) :
  In c (same_latitude DATA lat) <-> In c DATA /\ within_half lat (latitude c).
Proof.
  unfold same_latitude. rewrite filter_In. unfold in_latitude_band.
  rewrite open_band_iff. reflexivity.
Qed.

(** Every city of [DATA] with a finite latitude is in its own latitude
    band (and likewise for longitude). *)
Theorem same_latitude_self (DATA : list City) (c : City) :
  In c DATA -> is_nan (latitude c) = false ->
  In c (same_latitude DATA (latitude c)).
Proof.
  intros Hc Hn. apply same_latitude_iff. auto with geo.
Qed.

(** C17: a city is in the longitude band of [long] exactly when it is a
    city of [DATA] strictly within 0.5 degree of [long] or of
    [opposite_longitude long]. *)
Theorem same_longitude_iff (DATA : list City) (long : f64) (c : City) :
  In c (same_longitude DATA long) <->
  In c DATA /\ (within_half long (longitude c) \/
                within_half (opposite_longitude long) (longitude c)).
Proof.
  unfold same_longitude. rewrite filter_In. unfold in_longitude_band.
  rewrite orb_true_iff, !open_band_iff. reflexivity.
Qed.

Theorem same_longitude_self (DATA : list City) (c : City) :
  In c DATA -> is_nan (longitude c) = false ->
  In c (same_longitude DATA (longitude c)).
Proof.
  intros Hc Hn. apply same_longitude_iff. auto with geo.
Qed.

(** C18: on the longitudes whose magnitude is at least 90 degrees,
    [opposite_longitude] maps a longitude of (-180, 180] to the meridian on
    the other side of the globe and applying it twice gives the longitude
    back; there [180 - |x|] and [180 - (180 - |x|)] are exact in binary64
    (Sterbenz), so the rational model is the IEEE computation.  Below 90
    degrees the IEEE round trip is not the identity: it takes the double
    nearest 0.1 to 0.09999999999999432. *)
Theorem opposite_longitude_involutive (x : Q) :
  (-180 < x <= -90 \/ 90 <= x <= 180) ->
  opposite_longitude (opposite_longitude (Num x)) =f= Num x /\
  Ieee.opposite_longitude_ieee (Ieee.opposite_longitude_ieee Ieee.tenth) <> Ieee.tenth.
Proof.
  intros Hx. split; [|vm_compute; discriminate].
  unfold opposite_longitude, fgt. cbn [fabs fsub].
  destruct (flt (Num 0) (Num x)) eqn:E1;
    [apply flt_Num in E1|apply flt_Num_false in E1].
  - rewrite Qabs_pos_eq by lra. cbn [fmul fabs fsub].
    destruct (flt (Num 0) (Num ((180 - x) * -1))) eqn:E2;
      [apply flt_Num in E2; lra|]. cbn [feq].
    rewrite Qabs_neg_eq by lra. lra.
  - rewrite Qabs_neg_eq by lra. cbn [fabs fsub].
    destruct (flt (Num 0) (Num (180 - - x))) eqn:E2;
      [|apply flt_Num_false in E2; lra]. cbn [fmul feq].
    rewrite Qabs_pos_eq by lra. lra.
Qed.

(** C19: the longitude band does not wrap around the antimeridian: a city
    less than 0.5 degree from [long] across the 180th meridian is not in
    the band. *)
Theorem same_longitude_no_wrap (DATA : list City) (c : City) (x y : Q) :
  0 < x <= 180 -> -180 <= y -> longitude c = Num y -> y + 360 - x < 0.5 ->
  ~ In c (same_longitude DATA (Num x)).
Proof.
  intros Hx Hy Ec Hd. rewrite same_longitude_iff, Ec.
  intros [_ [(a & b & Ea & Eb & H)|(a & b & Ea & Eb & H)]].
  - injection Ea as <-. injection Eb as <-. lra.
  - injection Eb as <-. unfold opposite_longitude, fgt in Ea.
    rewrite (proj2 (flt_Num 0 x)) in Ea by lra. cbn [fabs fsub fmul] in Ea.
    injection Ea as <-. rewrite Qabs_pos_eq in H by lra. lra.
Qed.

(** ** Witnesses *)

(** At -100 (the opposite meridian of the tests' Pittsburgh, rounded), the
    round trip holds in the rational model and in binary64 alike. *)
Lemma opposite_longitude_involutive_witness :
  (opposite_longitude (opposite_longitude (Num (-100))) =f= Num (-100) /\
   Ieee.opposite_longitude_ieee (Ieee.opposite_longitude_ieee Ieee.minus_hundred) = Ieee.minus_hundred) /\
  Ieee.opposite_longitude_ieee (Ieee.opposite_longitude_ieee Ieee.tenth) <> Ieee.tenth.
Proof.
  split; [split|].
  - apply opposite_longitude_involutive. lra.
  - vm_compute. reflexivity.
  - apply (opposite_longitude_involutive (-100)). lra.
Defined.

Definition Taveuni := mk "Taveuni"%string (-16.8) (-179.9) 12000 "Fiji"%string "Northern"%string.

(** Taveuni is 0.3 degree from the meridian 179.8 across the antimeridian. *)
Lemma same_longitude_no_wrap_witness :
  ~ In Taveuni (same_longitude [Taveuni] (Num 179.8)).
Proof.
  apply (same_longitude_no_wrap _ _ 179.8 (-179.9)); try lra. reflexivity.
Defined.
