(* ===== verification/Ranking.v ===== *)
(** * [top_by_population]

    [cities.sort_by(|a, b| b.population.partial_cmp(&a.population).unwrap())]
    then [take(NUM_CITIES)].  The comparator is the descending instance
    [desc_order population] of [StableSort.KeyOrder], so the sort's theorems
    apply directly.  The theorems: on NaN-free populations the result is the
    first ten cities of the stable descending sort, it has at most ten
    cities in non-increasing order of population, and every city left out
    is no more populous than any city kept; with a NaN population the sort
    panics as soon as there are two cities. *)

From Stdlib Require Import List Permutation Sorted QArith Lqa Lia.
From S2P Require Import Prelude F64 City Samples StableSort.
Import ListNotations.
Local Open Scope panic_scope.

Definition NUM_CITIES : nat := 10.

Definition top_by_population (cities : list City) : option (list City) :=
  sorted <- sort_by (fun a b => partial_cmp (population b) (population a)) cities ;;
  Some (firstn NUM_CITIES sorted).

(** Non-increasing population, and the cities of population [v]. *)
Definition pop_ge (a b : City) : Prop :=
  (qval (population b) <= qval (population a))%Q.
Definition pop_is (v : Q) (c : City) : bool := Qeq_bool (qval (population c)) v.
Definition finite_pop (c : City) : Prop := is_nan (population c) = false.

Lemma pop_is_desc (v : Q) (c : City) :
  same_key (fun a b => partial_cmp (population b) (population a)) (- v) c
  = pop_is v c.
Proof.
  unfold same_key, pop_is. simpl.
  destruct (Qeq_bool (qval (population c)) v) eqn:E.
  - apply Qeq_bool_iff. apply Qeq_bool_iff in E. lra.
  - apply Bool.not_true_iff_false. intros H. apply Qeq_bool_iff in H.
    apply Bool.not_true_iff_false in E. apply E, Qeq_bool_iff. lra.
Qed.

(** The stable descending sort by population, as [top_by_population] runs it. *)
Lemma sort_by_population (cities : list City) :
  Forall finite_pop cities ->
  exists sorted,
    sort_by (fun a b => partial_cmp (population b) (population a)) cities = Some sorted /\
    Permutation cities sorted /\ Sorted pop_ge sorted /\
    (forall v, filter (pop_is v) sorted = filter (pop_is v) cities).
Proof.
  intros Hf.
  destruct (sort_by_sound _ (KO := desc_order population) cities Hf)
    as (s & E & Hp & Hs & Hst).
  exists s. split; [exact E|]. split; [exact Hp|]. split.
  - eapply Sorted_weaken; [|exact Hs]. unfold key_le, pop_ge. simpl. intros; lra.
  - intros v. rewrite <- !(filter_ext _ _ (pop_is_desc v)). apply Hst.
Qed.

Lemma top_by_population_sorted (cities : list City) :
  Forall finite_pop cities ->
  exists sorted,
    top_by_population cities = Some (firstn NUM_CITIES sorted) /\
    Permutation cities sorted /\ Sorted pop_ge sorted /\
    (forall v, filter (pop_is v) sorted = filter (pop_is v) cities).
Proof.
  intros Hf. destruct (sort_by_population cities Hf) as (s & E & H).
  exists s. unfold top_by_population. rewrite E. auto.
Qed.

(** C13: on NaN-free populations [top_by_population] returns the first
    [NUM_CITIES] cities of the stable sort by descending population: a
    permutation of the input, in non-increasing order, in which cities of
    equal population keep their input order. *)
Theorem top_by_population_spec (cities : list City) :
  Forall finite_pop cities ->
  exists sorted,
    top_by_population cities = Some (firstn NUM_CITIES sorted) /\
    Permutation cities sorted /\ Sorted pop_ge sorted /\
    (forall v, filter (pop_is v) sorted = filter (pop_is v) cities).
Proof. apply top_by_population_sorted. Qed.

(** C14: [top_by_population] keeps [min 10 n] of the [n] cities, in
    non-increasing order of population, and no city left out is more
    populous than a city kept. *)
Theorem top_by_population_top (cities : list City) :
  Forall finite_pop cities ->
  exists top, top_by_population cities = Some top /\
    length top = Nat.min NUM_CITIES (length cities) /\ Sorted pop_ge top /\
    forall c, In c cities -> In c top \/
      forall d, In d top -> (qval (population c) <= qval (population d))%Q.
Proof.
  intros Hf. destruct (top_by_population_sorted cities Hf) as (s & E & Hp & Hs & _).
  exists (firstn NUM_CITIES s). split; [exact E|]. split.
  { rewrite length_firstn, (Permutation_length Hp). reflexivity. }
  assert (Htr : Relations_1.Transitive pop_ge) by (unfold pop_ge; intros ? ? ? ? ?; lra).
  pose proof (Sorted_StronglySorted Htr Hs) as Hss.
  rewrite <- (firstn_skipn NUM_CITIES s) in Hss.
  apply StronglySorted_app_iff in Hss as (H1 & H2 & H3).
  split; [now apply StronglySorted_Sorted|].
  intros c Hc. apply (Permutation_in _ Hp) in Hc.
  rewrite <- (firstn_skipn NUM_CITIES s) in Hc. apply in_app_or in Hc as [Hc|Hc].
  - left. exact Hc.
  - right. intros d Hd. eapply Forall_forall in H3; [|exact Hd].
    eapply Forall_forall in H3; [|exact Hc]. exact H3.
Qed.

(** C15: [top_by_population] panics exactly when it is given two cities and
    one of them has a NaN population. *)
Theorem top_by_population_panics (cities : list City) :
  top_by_population cities = None <->
  (2 <= length cities)%nat /\ exists c, In c cities /\ is_nan (population c) = true.
Proof.
  rewrite <- (sort_by_none_iff _ (KO := desc_order population)).
  unfold top_by_population.
  destruct (sort_by _ cities); split; congruence.
Qed.

(** ** What the ranked list is made of *)

Lemma NoDup_firstn {A : Type} (n : nat) (l : list A) : NoDup l -> NoDup (firstn n l).
Proof.
  intros H. rewrite <- (firstn_skipn n l) in H. exact (NoDup_app_remove_r _ _ H).
Qed.

(** The ranked cities are cities of the input, without repetition when
    the input has none, and all of them when there are at most ten. *)
Lemma top_by_population_sub (cities : list City) :
  Forall finite_pop cities ->
  exists top, top_by_population cities = Some top /\
    incl top cities /\ (NoDup cities -> NoDup top) /\
    length top = Nat.min NUM_CITIES (length cities) /\
    ((length cities <= NUM_CITIES)%nat -> Permutation cities top).
Proof.
  intros Hf. destruct (top_by_population_sorted cities Hf) as (s & E & Hp & _).
  exists (firstn NUM_CITIES s). split; [exact E|]. split; [|split; [|split]].
  - intros x Hx. apply (Permutation_in _ (Permutation_sym Hp)).
    rewrite <- (firstn_skipn NUM_CITIES s). apply in_or_app. left. exact Hx.
  - intros Hn. apply NoDup_firstn. exact (Permutation_NoDup Hp Hn).
  - rewrite length_firstn, (Permutation_length Hp). reflexivity.
  - intros Hl. rewrite firstn_all2; [exact Hp|].
    rewrite <- (Permutation_length Hp). exact Hl.
Qed.

(** Whatever the populations, the ranked cities are cities of the input. *)
Lemma top_by_population_incl (cities top : list City) :
  top_by_population cities = Some top -> incl top cities.
Proof.
  unfold top_by_population.
  destruct (sort_by _ cities) as [s|] eqn:E; simpl; intros H; [|discriminate].
  injection H as <-. apply sort_by_perm in E. intros x Hx.
  apply (Permutation_in _ (Permutation_sym E)).
  rewrite <- (firstn_skipn NUM_CITIES s). apply in_or_app. left. exact Hx.
Qed.

(** ** Witnesses on the sample catalog *)

Lemma finite_pop_check (l : list City) :
  forallb (fun c => negb (is_nan (population c))) l = true -> Forall finite_pop l.
Proof. apply forallb_Forall. intros x Hx. now apply Bool.negb_true_iff in Hx. Qed.

Lemma top_by_population_spec_witness :
  exists sorted,
    top_by_population SAMPLE_DATA = Some (firstn NUM_CITIES sorted) /\
    Permutation SAMPLE_DATA sorted /\ Sorted pop_ge sorted /\
    (forall v, filter (pop_is v) sorted = filter (pop_is v) SAMPLE_DATA).
Proof. apply top_by_population_spec. apply finite_pop_check. by_compute. Defined.

Lemma top_by_population_top_witness :
  exists top, top_by_population SAMPLE_DATA = Some top /\
    length top = Nat.min NUM_CITIES (length SAMPLE_DATA) /\ Sorted pop_ge top /\
    forall c, In c SAMPLE_DATA -> In c top \/
      forall d, In d top -> (qval (population c) <= qval (population d))%Q.
Proof. apply top_by_population_top. apply finite_pop_check. by_compute. Defined.
