(* ===== verification/Directional.v ===== *)
(** * [sort_easterly] and [sort_northerly]

    [sort_easterly] sorts the ranked cities by longitude and puts the
    cities east of the reference longitude ([> start_long]) before the
    others: a flight east from the reference city, round the globe and back.
    [sort_northerly] splits the cities by the sign of their longitude
    against the reference's, sorts the reference's side by latitude and
    splits it at the reference latitude, sorts the other side by descending
    latitude, and flies north, over [NORTH_POLE], down the other side, over
    [SOUTH_POLE] and back up.  Both sorts are [StableSort.sort_by] with the
    instances [asc_order] and [desc_order].

    The theorems give the shape of each output (its legs, their bounds and
    order, a permutation of the input plus the poles) and the invariant the
    rendering relies on: the reference city is the last city of the output
    when no other input city shares its longitude (easterly) or latitude
    (northerly).  The last theorem records that the side of a city is the
    sign of its longitude, not the band it came from. *)

From Stdlib Require Import String List Permutation Sorted QArith Lqa Lia Bool.
From S2P Require Import Prelude F64 City Samples StableSort.
Import ListNotations.
Local Open Scope panic_scope.

Definition sort_easterly (cities : list City) (start_long : f64)
  : option (list City) :=
  cities <- sort_by (fun a b => partial_cmp (longitude a) (longitude b)) cities ;;
  let '(west, east) :=
    partition_map (fun city => if (longitude city <=? start_long)%f64
                               then Left city else Right city) cities in
  Some (east ++ west).

(** The closure of [sort_northerly]'s first [partition_map]. *)
Definition northerly_side (start_long_negative : bool) (city : City)
  : Either City City :=
  if start_long_negative then
    if (longitude city <? Num 0)%f64 then Left city else Right city
  else
    if (longitude city <? Num 0)%f64 then Right city else Left city.

Definition sort_northerly (cities : list City) (start_lat start_long : f64)
  : option (list City) :=
  let start_long_negative := (start_long <? Num 0)%f64 in
  let '(same_side, opp_side) :=
    partition_map (northerly_side start_long_negative) cities in
  same_side <- sort_by (fun a b => partial_cmp (latitude a) (latitude b)) same_side ;;
  let '(north, south) :=
    partition_map (fun city => if (latitude city >? start_lat)%f64
                               then Left city else Right city) same_side in
  opp_side <- sort_by (fun a b => partial_cmp (latitude b) (latitude a)) opp_side ;;
  Some (north ++ [NORTH_POLE] ++ opp_side ++ [SOUTH_POLE] ++ south).

(** ** Orders and sides *)

Definition lon_le (a b : City) : Prop := (qval (longitude a) <= qval (longitude b))%Q.
Definition lat_le (a b : City) : Prop := (qval (latitude a) <= qval (latitude b))%Q.
Definition lat_ge (a b : City) : Prop := (qval (latitude b) <= qval (latitude a))%Q.
Definition finite_lon (c : City) : Prop := is_nan (longitude c) = false.
Definition finite_lat (c : City) : Prop := is_nan (latitude c) = false.

(** The side [northerly_side] sends to the left: the reference's sign. *)
Definition same_side (start_long_negative : bool) (city : City) : bool :=
  if start_long_negative then (longitude city <? Num 0)%f64
  else negb (longitude city <? Num 0)%f64.

Lemma northerly_side_split (neg : bool) (city : City) :
  northerly_side neg city = if same_side neg city then Left city else Right city.
Proof.
  unfold northerly_side, same_side.
  destruct neg, (longitude city <? Num 0)%f64; reflexivity.
Qed.

(** The reference city is on its own side, NaN longitude included. *)
Lemma same_side_self (city : City) :
  same_side (longitude city <? Num 0)%f64 city = true.
Proof.
  unfold same_side. destruct (longitude city <? Num 0)%f64; reflexivity.
Qed.

Lemma Forall_in_perm {A : Type} (P : A -> Prop) (l l' : list A) :
  Permutation l l' -> Forall P l -> Forall P l'.
Proof.
  intros Hp. rewrite !Forall_forall. intros H x Hx.
  apply H. eapply Permutation_in; [symmetry|]; eauto.
Qed.

Ltac trans_Q R := unfold R; intros ? ? ? ? ?; lra.

(** ** The easterly sort *)

Lemma sort_easterly_legs (cities : list City) (s : Q) :
  Forall finite_lon cities ->
  exists east west,
    sort_easterly cities (Num s) = Some (east ++ west) /\
    Permutation cities (east ++ west) /\
    Forall (fun c => (s < qval (longitude c))%Q) east /\ Sorted lon_le east /\
    Forall (fun c => (qval (longitude c) <= s)%Q) west /\ Sorted lon_le west.
Proof.
  intros Hf.
  destruct (sort_by_sound _ (KO := asc_order longitude) cities Hf)
    as (sorted & E & Hp & Hs & _).
  pose proof (Forall_in_perm _ _ _ Hp Hf) as Hf'.
  unfold sort_easterly. rewrite E, partition_map_split.
  match goal with |- context [filter (fun x => negb (@?q x)) sorted] => set (p := q) end.
  exists (filter (fun x => negb (p x)) sorted), (filter p sorted).
  split; [reflexivity|]. split.
  { eapply perm_trans; [exact Hp|].
    eapply perm_trans; [apply (filter_app_perm p)|apply Permutation_app_comm]. }
  assert (Htr : forall x y z, lon_le x y -> lon_le y z -> lon_le x z) by trans_Q lon_le.
  repeat split; try (apply Sorted_filter; [exact Htr|exact Hs]);
    apply Forall_forall; intros x Hx; apply filter_In in Hx as [Hx Hpx];
    assert (Hxf : finite_lon x) by (eapply Forall_forall; eauto); unfold p in Hpx.
  - apply negb_true_iff in Hpx. now apply fle_finite_false in Hpx.
  - now apply fle_finite in Hpx.
Qed.

Lemma sort_easterly_last (cities : list City) (c : City) :
  Forall finite_lon cities -> In c cities ->
  (forall d, In d cities -> d <> c -> ~ (qval (longitude d) == qval (longitude c))%Q) ->
  exists init, sort_easterly cities (longitude c) = Some (init ++ [c]).
Proof.
  intros Hf Hc Hu.
  assert (Hcf : finite_lon c) by (eapply Forall_forall; eauto).
  unfold finite_lon in Hcf.
  destruct (longitude c) as [s|] eqn:Ec; [|discriminate Hcf].
  destruct (sort_easterly_legs cities s Hf)
    as (east & west & E & Hp & He & _ & Hw & Hsw).
  assert (Hcw : In c west).
  { apply (Permutation_in _ Hp) in Hc. apply in_app_or in Hc as [Hc|Hc]; [|exact Hc].
    eapply Forall_forall in He; [|exact Hc]. rewrite Ec in He. simpl in He. lra. }
  destruct (sorted_max_last (fun x => qval (longitude x)) city_eq_dec west c Hsw Hcw)
    as (init & Ew).
  { intros d Hd Hne. eapply Forall_forall in Hw; [|exact Hd].
    assert (Hdc : In d cities).
    { apply (Permutation_in _ (Permutation_sym Hp)), in_or_app. right. exact Hd. }
    specialize (Hu d Hdc Hne). rewrite Ec. simpl in *.
    destruct (Qlt_le_dec (qval (longitude d)) s) as [Hlt|Hge]; [exact Hlt|].
    exfalso. apply Hu. lra. }
  exists (east ++ init). rewrite E, Ew, app_assoc. reflexivity.
Qed.

(** ** The northerly sort *)

(** [sort_northerly] on finite latitudes: the reference's side [s1] sorted
    by latitude, the other side [s2] sorted by descending latitude, and the
    output assembled from them. *)
Lemma sort_northerly_filters (cities : list City) (start_lat start_long : f64) :
  Forall finite_lat cities ->
  let ss := same_side (start_long <? Num 0)%f64 in
  let gt := fun city => (latitude city >? start_lat)%f64 in
  exists s1 s2,
    Permutation (filter ss cities) s1 /\ Sorted lat_le s1 /\
    Permutation (filter (fun x => negb (ss x)) cities) s2 /\ Sorted lat_ge s2 /\
    sort_northerly cities start_lat start_long
    = Some (filter gt s1 ++ [NORTH_POLE] ++ s2 ++ [SOUTH_POLE]
            ++ filter (fun x => negb (gt x)) s1).
Proof.
  intros Hf ss gt.
  destruct (sort_by_sound _ (KO := asc_order latitude) (filter ss cities)
              (Forall_filter_of _ _ _ Hf)) as (s1 & E1 & Hp1 & Hs1 & _).
  destruct (sort_by_sound _ (KO := desc_order latitude)
              (filter (fun x => negb (ss x)) cities) (Forall_filter_of _ _ _ Hf))
    as (s2 & E2 & Hp2 & Hs2 & _).
  exists s1, s2. repeat split; auto.
  - eapply Sorted_weaken; [|exact Hs2]. unfold key_le, lat_ge. simpl. intros; lra.
  - unfold sort_northerly.
    rewrite (partition_map_ext _ (fun city => if ss city then Left city else Right city))
      by (intros; apply northerly_side_split).
    rewrite (partition_map_split ss), E1, partition_map_split, E2. reflexivity.
Qed.

(** C5: [sort_northerly] returns the input's cities plus the two poles:
    its output is two cities longer than its input. *)
Theorem sort_northerly_length (cities : list City) (start_lat start_long : f64) :
  Forall finite_lat cities ->
  exists out, sort_northerly cities start_lat start_long = Some out /\
    length out = (length cities + 2)%nat.
Proof.
  intros Hf. destruct (sort_northerly_filters cities start_lat start_long Hf)
    as (s1 & s2 & Hp1 & _ & Hp2 & _ & E).
  eexists. split; [exact E|].
  pose proof (Permutation_length (filter_app_perm (same_side (start_long <? Num 0)%f64) cities)).
  pose proof (Permutation_length (filter_app_perm (fun city => (latitude city >? start_lat)%f64) s1)).
  pose proof (Permutation_length Hp1). pose proof (Permutation_length Hp2).
  rewrite !length_app in *. simpl. lia.
Qed.

Lemma sort_northerly_legs (cities : list City) (s : Q) (start_long : f64) :
  Forall finite_lat cities ->
  let side := same_side (start_long <? Num 0)%f64 in
  exists north opp south,
    sort_northerly cities (Num s) start_long
    = Some (north ++ [NORTH_POLE] ++ opp ++ [SOUTH_POLE] ++ south) /\
    Permutation cities (north ++ opp ++ south) /\
    Forall (fun c => side c = true /\ (s < qval (latitude c))%Q) north /\
    Sorted lat_le north /\
    Forall (fun c => side c = false) opp /\ Sorted lat_ge opp /\
    Forall (fun c => side c = true /\ (qval (latitude c) <= s)%Q) south /\
    Sorted lat_le south.
Proof.
  intros Hf side.
  destruct (sort_northerly_filters cities (Num s) start_long Hf)
    as (s1 & s2 & Hp1 & Hs1 & Hp2 & Hs2 & E).
  set (gt := fun city => (latitude city >? Num s)%f64) in E.
  exists (filter gt s1), s2, (filter (fun x => negb (gt x)) s1).
  assert (Hin1 : forall x, In x s1 -> side x = true /\ finite_lat x).
  { intros x Hx. apply (Permutation_in _ (Permutation_sym Hp1)), filter_In in Hx.
    split; [tauto|]. eapply Forall_forall; [exact Hf|tauto]. }
  assert (Htr : forall x y z, lat_le x y -> lat_le y z -> lat_le x z) by trans_Q lat_le.
  split; [exact E|]. split.
  { eapply perm_trans; [apply (filter_app_perm side)|].
    eapply perm_trans; [apply Permutation_app; [exact Hp1|exact Hp2]|].
    eapply perm_trans; [apply Permutation_app_tail, (filter_app_perm gt)|].
    rewrite <- app_assoc. apply Permutation_app_head, Permutation_app_comm. }
  repeat split; try (apply Sorted_filter; [exact Htr|exact Hs1]); try exact Hs2;
    apply Forall_forall; intros x Hx.
  - apply filter_In in Hx as [Hx Hg]. apply Hin1 in Hx as [Hside Hx].
    split; [exact Hside|]. now apply flt_finite_r in Hg.
  - apply (Permutation_in _ (Permutation_sym Hp2)), filter_In in Hx as [_ Hx].
    now apply negb_true_iff in Hx.
  - apply filter_In in Hx as [Hx Hg]. apply Hin1 in Hx as [Hside Hx].
    split; [exact Hside|].
    apply negb_true_iff in Hg. now apply flt_finite_r_false in Hg.
Qed.

Lemma sort_northerly_last (cities : list City) (c : City) :
  Forall finite_lat cities -> In c cities ->
  (forall d, In d cities -> d <> c -> ~ (qval (latitude d) == qval (latitude c))%Q) ->
  exists init, sort_northerly cities (latitude c) (longitude c) = Some (init ++ [c]).
Proof.
  intros Hf Hc Hu.
  assert (Hcf : finite_lat c) by (eapply Forall_forall; eauto).
  unfold finite_lat in Hcf.
  destruct (latitude c) as [s|] eqn:Ec; [|discriminate Hcf].
  destruct (sort_northerly_legs cities s (longitude c) Hf)
    as (north & opp & south & E & Hp & Hn & _ & Ho & _ & Hs & Hss).
  assert (Hcs : In c south).
  { apply (Permutation_in _ Hp) in Hc.
    apply in_app_or in Hc as [Hc|Hc]; [|apply in_app_or in Hc as [Hc|Hc]; [|exact Hc]].
    - eapply Forall_forall in Hn; [|exact Hc]. rewrite Ec in Hn. simpl in Hn. lra.
    - eapply Forall_forall in Ho; [|exact Hc]. rewrite same_side_self in Ho.
      discriminate. }
  destruct (sorted_max_last (fun x => qval (latitude x)) city_eq_dec south c Hss Hcs)
    as (init & Es).
  { intros d Hd Hne. eapply Forall_forall in Hs; [|exact Hd].
    assert (Hdc : In d cities).
    { apply (Permutation_in _ (Permutation_sym Hp)), in_or_app. right.
      apply in_or_app. right. exact Hd. }
    specialize (Hu d Hdc Hne). rewrite Ec. simpl in *.
    destruct (Qlt_le_dec (qval (latitude d)) s) as [Hlt|Hge]; [exact Hlt|].
    exfalso. apply Hu. lra. }
  exists (north ++ [NORTH_POLE] ++ opp ++ [SOUTH_POLE] ++ init).
  rewrite E, Es. rewrite !app_assoc. reflexivity.
Qed.

(** C20: the side of a city is the sign of its longitude: for a reference
    longitude [t >= 0], a city of negative longitude is flown over between
    the poles, as if it were on the opposite meridian, even when it lies
    within the reference meridian's band (for [t] under 0.5). *)
Theorem sort_northerly_sign_side (cities : list City) (s t y : Q) (d : City) :
  Forall finite_lat cities -> In d cities -> (0 <= t)%Q ->
  longitude d = Num y -> (y < 0)%Q ->
  exists north opp south,
    sort_northerly cities (Num s) (Num t)
    = Some (north ++ [NORTH_POLE] ++ opp ++ [SOUTH_POLE] ++ south) /\ In d opp.
Proof.
  intros Hf Hd Ht Ey Hy.
  destruct (sort_northerly_legs cities s (Num t) Hf)
    as (north & opp & south & E & Hp & Hn & _ & _ & _ & Hs & _).
  exists north, opp, south. split; [exact E|].
  assert (Hside : same_side (Num t <? Num 0)%f64 d = false).
  { unfold same_side. rewrite (proj2 (flt_Num_false t 0)) by exact Ht.
    rewrite Ey, (proj2 (flt_Num y 0)) by exact Hy. reflexivity. }
  apply (Permutation_in _ Hp) in Hd.
  apply in_app_or in Hd as [Hd|Hd]; [|apply in_app_or in Hd as [Hd|Hd]; [exact Hd|]].
  - eapply Forall_forall in Hn; [|exact Hd]. destruct Hn as [Hn _]. congruence.
  - eapply Forall_forall in Hs; [|exact Hd]. destruct Hs as [Hs _]. congruence.
Qed.

(** Whatever the coordinates, a sort that returns keeps the input's cities
    and adds at most the two poles. *)
Lemma sort_easterly_incl (cities out : list City) (start_long : f64) :
  sort_easterly cities start_long = Some out -> Permutation cities out.
Proof.
  unfold sort_easterly. set (p := fun city => (longitude city <=? start_long)%f64).
  destruct (sort_by _ cities) as [l|] eqn:E; simpl; [|discriminate].
  rewrite (partition_map_split p). intros H. injection H as <-.
  apply sort_by_perm in E. rewrite E.
  eapply perm_trans; [apply (filter_app_perm p)|apply Permutation_app_comm].
Qed.

Lemma sort_northerly_incl (cities out : list City) (start_lat start_long : f64) :
  sort_northerly cities start_lat start_long = Some out ->
  incl out (NORTH_POLE :: SOUTH_POLE :: cities).
Proof.
  unfold sort_northerly. set (ss := same_side (start_long <? Num 0)%f64).
  rewrite (partition_map_ext _ (fun city => if ss city then Left city else Right city))
    by (intros; apply northerly_side_split).
  rewrite (partition_map_split ss).
  destruct (sort_by _ (filter ss cities)) as [s1|] eqn:E1; simpl; [|discriminate].
  set (gt := fun city => (latitude city >? start_lat)%f64).
  rewrite (partition_map_split gt).
  destruct (sort_by _ (filter (fun x => negb (ss x)) cities)) as [s2|] eqn:E2;
    simpl; [|discriminate].
  intros H. injection H as <-. apply sort_by_perm in E1, E2.
  assert (H1 : incl s1 cities)
    by (intros x Hx; apply (Permutation_in _ (Permutation_sym E1)), filter_In in Hx; tauto).
  assert (H2 : incl s2 cities)
    by (intros x Hx; apply (Permutation_in _ (Permutation_sym E2)), filter_In in Hx; tauto).
  intros x Hx. rewrite in_app_iff in Hx. simpl in Hx. rewrite in_app_iff in Hx. simpl in Hx.
  destruct Hx as [Hx|[<-|[Hx|[<-|Hx]]]];
    try apply filter_In in Hx as [Hx _]; simpl; auto.
Qed.

(** ** Permutation facts the rendering uses *)

Lemma sort_easterly_perm (cities : list City) (start_long : f64) :
  Forall finite_lon cities -> is_nan start_long = false ->
  exists out, sort_easterly cities start_long = Some out /\ Permutation cities out.
Proof.
  intros Hf Hs. destruct start_long as [s|]; [|discriminate].
  destruct (sort_easterly_legs cities s Hf) as (e & w & E & Hp & _). eauto.
Qed.

(** [sort_easterly] panics only on a NaN longitude among the cities: a NaN
    reference longitude sends every city east but does not panic. *)
Lemma sort_easterly_total (cities : list City) (start_long : f64) :
  Forall finite_lon cities -> exists out, sort_easterly cities start_long = Some out.
Proof.
  intros Hf. destruct (sort_by_sound _ (KO := asc_order longitude) cities Hf) as (s & E & _).
  unfold sort_easterly. rewrite E. destruct (partition_map _ s). eauto.
Qed.

Lemma sort_northerly_perm (cities : list City) (start_lat start_long : f64) :
  Forall finite_lat cities ->
  exists north opp south,
    sort_northerly cities start_lat start_long
    = Some (north ++ [NORTH_POLE] ++ opp ++ [SOUTH_POLE] ++ south) /\
    Permutation cities (north ++ opp ++ south).
Proof.
  intros Hf. destruct (sort_northerly_filters cities start_lat start_long Hf)
    as (s1 & s2 & Hp1 & _ & Hp2 & _ & E).
  do 3 eexists. split; [exact E|].
  eapply perm_trans; [apply (filter_app_perm (same_side (start_long <? Num 0)%f64))|].
  eapply perm_trans; [apply Permutation_app; [exact Hp1|exact Hp2]|].
  eapply perm_trans; [apply Permutation_app_tail, filter_app_perm|].
  rewrite <- app_assoc. apply Permutation_app_head, Permutation_app_comm.
Qed.

(** ** The properties of the two sorts *)

(** C1: when no other input city has the reference city's longitude, the
    reference city is the last city of [sort_easterly]'s output: the
    rendering can drop the last slot and name the reference city itself. *)
Theorem sort_easterly_reference_last (cities : list City) (c : City) :
  Forall finite_lon cities -> In c cities ->
  (forall d, In d cities -> d <> c -> ~ (qval (longitude d) == qval (longitude c))%Q) ->
  exists init, sort_easterly cities (longitude c) = Some (init ++ [c]).
Proof. apply sort_easterly_last. Qed.

(** C2: when no other input city has the reference city's latitude, the
    reference city is the last city of [sort_northerly]'s output, after
    [SOUTH_POLE]. *)
Theorem sort_northerly_reference_last (cities : list City) (c : City) :
  Forall finite_lat cities -> In c cities ->
  (forall d, In d cities -> d <> c -> ~ (qval (latitude d) == qval (latitude c))%Q) ->
  exists init, sort_northerly cities (latitude c) (longitude c) = Some (init ++ [c]).
Proof. apply sort_northerly_last. Qed.

(** C3: on finite longitudes, [sort_easterly] returns the cities east of
    [start_long] in increasing longitude, then the others (longitude at
    most [start_long]) in increasing longitude: a permutation of its input. *)
Theorem sort_easterly_shape (cities : list City) (s : Q) :
  Forall finite_lon cities ->
  exists east west,
    sort_easterly cities (Num s) = Some (east ++ west) /\
    Permutation cities (east ++ west) /\
    Forall (fun c => (s < qval (longitude c))%Q) east /\ Sorted lon_le east /\
    Forall (fun c => (qval (longitude c) <= s)%Q) west /\ Sorted lon_le west.
Proof. apply sort_easterly_legs. Qed.

(** C4: on finite latitudes, [sort_northerly] flies north over the
    reference's side above [start_lat] in increasing latitude, over
    [NORTH_POLE], down the other side in decreasing latitude, over
    [SOUTH_POLE], and up the reference's side below [start_lat]; the three
    legs are a permutation of the input. *)
Theorem sort_northerly_shape (cities : list City) (s : Q) (start_long : f64) :
  Forall finite_lat cities ->
  let side := same_side (start_long <? Num 0)%f64 in
  exists north opp south,
    sort_northerly cities (Num s) start_long
    = Some (north ++ [NORTH_POLE] ++ opp ++ [SOUTH_POLE] ++ south) /\
    Permutation cities (north ++ opp ++ south) /\
    Forall (fun c => side c = true /\ (s < qval (latitude c))%Q) north /\
    Sorted lat_le north /\
    Forall (fun c => side c = false) opp /\ Sorted lat_ge opp /\
    Forall (fun c => side c = true /\ (qval (latitude c) <= s)%Q) south /\
    Sorted lat_le south.
Proof. apply sort_northerly_legs. Qed.

(** ** Witnesses on the sample catalog *)

Lemma finite_lon_check (l : list City) :
  forallb (fun c => negb (is_nan (longitude c))) l = true -> Forall finite_lon l.
Proof. apply forallb_Forall. intros x Hx. now apply negb_true_iff in Hx. Qed.

Lemma finite_lat_check (l : list City) :
  forallb (fun c => negb (is_nan (latitude c))) l = true -> Forall finite_lat l.
Proof. apply forallb_Forall. intros x Hx. now apply negb_true_iff in Hx. Qed.

Lemma sort_easterly_reference_last_witness :
  exists init, sort_easterly SAMPLE_DATA (longitude Pittsburgh) = Some (init ++ [Pittsburgh]).
Proof.
  apply sort_easterly_reference_last.
  - apply finite_lon_check. by_compute.
  - apply (in_dec_In city_eq_dec). by_compute.
  - apply (unique_key_check (fun x => qval (longitude x)) city_eq_dec). by_compute.
Defined.

Lemma sort_northerly_reference_last_witness :
  exists init, sort_northerly SAMPLE_DATA (latitude Pittsburgh) (longitude Pittsburgh)
               = Some (init ++ [Pittsburgh]).
Proof.
  apply sort_northerly_reference_last.
  - apply finite_lat_check. by_compute.
  - apply (in_dec_In city_eq_dec). by_compute.
  - apply (unique_key_check (fun x => qval (latitude x)) city_eq_dec). by_compute.
Defined.

Lemma sort_easterly_shape_witness :
  exists east west,
    sort_easterly SAMPLE_DATA (Num (-79.99998539)) = Some (east ++ west) /\
    Permutation SAMPLE_DATA (east ++ west) /\
    Forall (fun c => (-79.99998539 < qval (longitude c))%Q) east /\ Sorted lon_le east /\
    Forall (fun c => (qval (longitude c) <= -79.99998539)%Q) west /\ Sorted lon_le west.
Proof. apply sort_easterly_shape. apply finite_lon_check. by_compute. Defined.

Lemma sort_northerly_shape_witness :
  let side := same_side (Num (-79.99998539) <? Num 0)%f64 in
  exists north opp south,
    sort_northerly SAMPLE_DATA (Num 40.4299986) (Num (-79.99998539))
    = Some (north ++ [NORTH_POLE] ++ opp ++ [SOUTH_POLE] ++ south) /\
    Permutation SAMPLE_DATA (north ++ opp ++ south) /\
    Forall (fun c => side c = true /\ (40.4299986 < qval (latitude c))%Q) north /\
    Sorted lat_le north /\
    Forall (fun c => side c = false) opp /\ Sorted lat_ge opp /\
    Forall (fun c => side c = true /\ (qval (latitude c) <= 40.4299986)%Q) south /\
    Sorted lat_le south.
Proof. apply sort_northerly_shape. apply finite_lat_check. by_compute. Defined.

Lemma sort_northerly_length_witness :
  exists out, sort_northerly SAMPLE_DATA (latitude Jaque) (longitude Jaque) = Some out /\
    length out = (length SAMPLE_DATA + 2)%nat.
Proof. apply sort_northerly_length. apply finite_lat_check. by_compute. Defined.

Definition Dartford := mk "Dartford"%string 51.446 0.2167 56818 "United Kingdom"%string "Kent"%string.
Definition London := mk "London"%string 51.5072 (-0.1275) 8567000 "United Kingdom"%string "Westminster"%string.

(** London lies within half a degree of Dartford's meridian but west of
    Greenwich: it is flown over between the poles. *)
Lemma sort_northerly_sign_side_witness :
  exists north opp south,
    sort_northerly [Dartford; London] (Num 51.446) (Num 0.2167)
    = Some (north ++ [NORTH_POLE] ++ opp ++ [SOUTH_POLE] ++ south) /\ In London opp.
Proof.
  apply (sort_northerly_sign_side _ _ _ (-0.1275)).
  - apply finite_lat_check. by_compute.
  - right. left. reflexivity.
  - lra.
  - reflexivity.
  - lra.
Defined.
