(* ===== verification/Render.v ===== *)
(** * The narrative: degrees and minutes, the two sentences, the full text

    [decimal_to_degrees_minutes] truncates a coordinate to whole degrees
    and minutes; [latitude_in_degrees] and [longitude_in_degrees] print
    them with the hemisphere letter ([N]/[E] for a positive value, [S]/[W]
    otherwise, zero included).  [latitude_text] runs [same_latitude],
    [top_by_population] and [sort_easterly], lists the first
    [NUM_CITIES_LATITUDE] cities and names the reference city last;
    [longitude_text] does the same through [same_longitude] and
    [sort_northerly] with [NUM_CITIES_LONGITUDE].  [location_text] joins the
    four lines.  Every function reading [DATA] takes it as the [Section]
    variable; a panic of a sort is [None].

    The theorems: the minutes are the truncated sixtieths of the fractional
    degree (never rounded, always in 0..59); the hemisphere letter; the
    reference city is named exactly once when at least ten cities share its
    band and its coordinate is unique there, and twice when fewer than ten
    share it (the rendering drops the last slot only when there are ten
    ranked cities); over a catalog without NaN, [location_text] and
    [random_location] always return a text, while a NaN population in a
    band makes [location_text] panic. *)

From Stdlib Require Import String List QArith Qround Qabs Lqa Lia ZArith Permutation.
From S2P Require Import Prelude F64 City Samples StableSort Bands Ranking Directional.
Import ListNotations.
Local Open Scope panic_scope.

Definition NUM_CITIES_LATITUDE : nat := 9.
Definition NUM_CITIES_LONGITUDE : nat := 11.

(** [Display] of an [f64] that holds a whole number, the only values the
    program prints (results of [floor]). *)
Definition f64_display (x : f64) : string :=
  match x with
  | Num q => string_of_Z (Qfloor q)
  | NaN => "NaN"%string
  end.

Definition decimal_to_degrees_minutes (coord : f64) : f64 * f64 :=
  (ffloor (fabs coord),
   ffloor ((fabs coord * Num 60) mod Num 60)%f64).

Definition degrees_text (deg min : f64) (dir : string) : string :=
  (f64_display deg ++ "°" ++ f64_display min ++ "'" ++ dir)%string.

Definition latitude_in_degrees (coord : f64) : string :=
  let dir := if (coord >? Num 0)%f64 then "N"%string else "S"%string in
  let '(deg, min) := decimal_to_degrees_minutes coord in
  degrees_text deg min dir.

Definition longitude_in_degrees (coord : f64) : string :=
  let dir := if (coord >? Num 0)%f64 then "E"%string else "W"%string in
  let '(deg, min) := decimal_to_degrees_minutes coord in
  degrees_text deg min dir.

(** A line feed. *)
Definition nl : string := String (Ascii.ascii_of_nat 10) EmptyString.

Section Narrative.
Variable DATA : list City.

Definition latitude_cities (latitude longitude : f64) : option (list City) :=
  let cities := same_latitude DATA latitude in
  cities <- top_by_population cities ;;
  sort_easterly cities longitude.

Definition latitude_text (city : City) : option string :=
  cities <- latitude_cities (City.latitude city) (City.longitude city) ;;
  Some ("If you fly along this latitude in an easterly direction, you will look down on "
        ++ join ", " (map city_display (firstn NUM_CITIES_LATITUDE cities))
        ++ ", " ++ city_display city ++ ".")%string.

Definition longitude_cities (latitude longitude : f64) : option (list City) :=
  let cities := same_longitude DATA longitude in
  cities <- top_by_population cities ;;
  sort_northerly cities latitude longitude.

Definition longitude_text (city : City) : option string :=
  cities <- longitude_cities (City.latitude city) (City.longitude city) ;;
  Some ("If you fly along this longitude starting north, you will look down on "
        ++ join ", " (map city_display (firstn NUM_CITIES_LONGITUDE cities))
        ++ ", " ++ city_display city ++ ".")%string.

Definition location_text (city : City) : option string :=
  lat_text <- latitude_text city ;;
  long_text <- longitude_text city ;;
  Some ("You are now in " ++ city_display city ++ ", " ++ province city ++ ", "
        ++ country city ++ nl
        ++ latitude_in_degrees (latitude city) ++ " "
        ++ longitude_in_degrees (longitude city) ++ nl
        ++ lat_text ++ nl ++ long_text)%string.
End Narrative.

(** ** Degrees and minutes *)

(** For a finite coordinate [x], the degrees are the floor [d] of [|x|]
    and the minutes the floor [m] of the remaining fraction times sixty. *)
Lemma decimal_to_degrees_minutes_spec (x : Q) :
  exists d m,
    decimal_to_degrees_minutes (Num x) = (Num (inject_Z d), Num (inject_Z m)) /\
    d = Qfloor (Qabs x) /\ (0 <= d)%Z /\
    m = Qfloor (60 * (Qabs x - inject_Z d)) /\ (0 <= m <= 59)%Z.
Proof.
  set (d := Qfloor (Qabs x)).
  set (m := Qfloor (60 * (Qabs x - inject_Z d))).
  exists d, m.
  assert (Ha : 0 <= Qabs x) by apply Qabs_nonneg.
  destruct (Qfloor_bounds (Qabs x)) as [D1 D2]. fold d in D1, D2.
  assert (Hm : Qfloor ((Qabs x * 60) - inject_Z (Qfloor (Qabs x * 60 / 60)) * 60) = m).
  { unfold m. rewrite (Qfloor_comp (Qabs x * 60 / 60) (Qabs x)) by (field; discriminate).
    apply Qfloor_comp. fold d. ring. }
  split.
  - unfold decimal_to_degrees_minutes. cbn [fabs fmul].
    rewrite frem_nonneg by lra. cbn [ffloor]. rewrite Hm. reflexivity.
  - split; [reflexivity|]. split; [apply Qfloor_nonneg, Ha|]. split; [reflexivity|].
    destruct (Qfloor_bounds (60 * (Qabs x - inject_Z d))) as [M1 M2]. fold m in M1, M2.
    clearbody m d.
    assert (L : (-1 < m)%Z) by (rewrite Zlt_Qlt; unfold inject_Z at 1; lra).
    assert (U : (m < 60)%Z) by (rewrite Zlt_Qlt; unfold inject_Z at 2; lra).
    lia.
Qed.

(** C21: the coordinate line: whole degrees, truncated minutes in 0..59,
    and [N] (or [E]) exactly for a positive value, [S] (or [W]) for zero
    and below. *)
Theorem coordinate_text_spec (x : Q) :
  exists d m, d = Qfloor (Qabs x) /\ m = Qfloor (60 * (Qabs x - inject_Z d)) /\
    (0 <= m <= 59)%Z /\
    latitude_in_degrees (Num x)
    = (string_of_Z d ++ "°" ++ string_of_Z m ++ "'"
       ++ if Qlt_le_dec 0 x then "N" else "S")%string /\
    longitude_in_degrees (Num x)
    = (string_of_Z d ++ "°" ++ string_of_Z m ++ "'"
       ++ if Qlt_le_dec 0 x then "E" else "W")%string.
Proof.
  destruct (decimal_to_degrees_minutes_spec x) as (d & m & E & Hd & _ & Hm & Hb).
  exists d, m. repeat split; try assumption; try lia;
    unfold latitude_in_degrees, longitude_in_degrees, degrees_text, fgt;
    rewrite E; cbn [f64_display]; rewrite !Qfloor_Z;
    destruct (Qlt_le_dec 0 x) as [H|H];
    [rewrite (proj2 (flt_Num 0 x) H)|rewrite (proj2 (flt_Num_false 0 x) H)
    |rewrite (proj2 (flt_Num 0 x) H)|rewrite (proj2 (flt_Num_false 0 x) H)];
    reflexivity.
Qed.

(** ** The reference city in the two sentences *)

Lemma finite_city_parts (l : list City) :
  Forall (fun c => finite_city c = true) l ->
  Forall finite_lat l /\ Forall finite_lon l /\ Forall finite_pop l.
Proof.
  intros H. repeat split; eapply Forall_impl; try exact H;
    intros c Hc; unfold finite_city, finite_lat, finite_lon, finite_pop in *;
    destruct (is_nan (latitude c)), (is_nan (longitude c)), (is_nan (population c));
    easy.
Qed.

Lemma not_in_firstn {A : Type} (x : A) (n : nat) (l : list A) :
  ~ In x l -> ~ In x (firstn n l).
Proof.
  intros H Hx. apply H. rewrite <- (firstn_skipn n l). apply in_or_app. now left.
Qed.

Lemma firstn_snoc_length {A : Type} (init : list A) (x : A) :
  firstn (length init) (init ++ [x])%list = init.
Proof.
  rewrite firstn_app, Nat.sub_diag, firstn_all. simpl. apply app_nil_r.
Qed.

Section Listing.
Variable DATA : list City.
Hypothesis Hfin : Forall (fun c => finite_city c = true) DATA.

Let band_lat (city : City) := same_latitude DATA (latitude city).

Lemma band_lat_finite (city : City) :
  Forall finite_lat (band_lat city) /\ Forall finite_lon (band_lat city) /\
  Forall finite_pop (band_lat city).
Proof. apply finite_city_parts, Forall_filter_of, Hfin. Qed.

(** C6: when at least ten cities share the reference city's latitude
    band, none of them with its longitude, the latitude sentence lists
    nine cities other than the reference city and then names it: it is
    named exactly once. *)
Theorem latitude_cities_reference_once (city : City) :
  NoDup DATA -> In city DATA ->
  (forall d, In d (same_latitude DATA (latitude city)) -> d <> city ->
     ~ (qval (longitude d) == qval (longitude city))%Q) ->
  (NUM_CITIES <= length (same_latitude DATA (latitude city)))%nat ->
  exists cs, latitude_cities DATA (latitude city) (longitude city) = Some cs /\
    length cs = NUM_CITIES /\ ~ In city (firstn NUM_CITIES_LATITUDE cs).
Proof.
  intros Hnd Hc Hu Hlen. fold (band_lat city) in Hu, Hlen.
  destruct (band_lat_finite city) as (_ & Hlon & Hpop).
  destruct (top_by_population_sub _ Hpop) as (T & ET & Hincl & HndT & HlenT & _).
  rewrite Nat.min_l in HlenT by exact Hlen.
  assert (HlonT : Forall finite_lon T) by (eapply incl_Forall; eauto).
  assert (Hcf : is_nan (longitude city) = false).
  { eapply Forall_forall in Hfin; [|exact Hc]. unfold finite_city in Hfin.
    destruct (is_nan (longitude city)); [|reflexivity].
    rewrite orb_true_r in Hfin. discriminate. }
  destruct (sort_easterly_perm T (longitude city) HlonT Hcf) as (cs & Ecs & Hp).
  exists cs. unfold latitude_cities. fold (band_lat city). rewrite ET. split; [exact Ecs|].
  assert (Hlcs : length cs = NUM_CITIES) by (rewrite <- (Permutation_length Hp); exact HlenT).
  split; [exact Hlcs|].
  destruct (in_dec city_eq_dec city T) as [HT|HT].
  - destruct (sort_easterly_last T city HlonT HT) as (init & Ei).
    { intros d Hd. apply Hu, Hincl, Hd. }
    rewrite Ecs in Ei. injection Ei as ->.
    rewrite length_app in Hlcs. simpl in Hlcs.
    replace NUM_CITIES_LATITUDE with (length init) by (unfold NUM_CITIES in Hlcs;
      unfold NUM_CITIES_LATITUDE; lia).
    rewrite firstn_snoc_length.
    apply (Permutation_NoDup Hp) in HndT; [|apply NoDup_filter, Hnd].
    apply NoDup_remove_2 in HndT. rewrite app_nil_r in HndT. exact HndT.
  - apply not_in_firstn. intros Hin. apply HT.
    exact (Permutation_in _ (Permutation_sym Hp) Hin).
Qed.
Lemma finite_in_data (city : City) :
  In city DATA ->
  is_nan (latitude city) = false /\ is_nan (longitude city) = false.
Proof.
  intros Hc. eapply Forall_forall in Hfin; [|exact Hc].
  destruct (finite_city_parts [city]) as (H1 & H2 & _); [now constructor|].
  inversion H1; inversion H2; auto.
Qed.

(** C8: when fewer than ten cities share the reference city's latitude
    band, none of them with its longitude, all of them are listed, the
    reference city last, and the sentence names it once more: the text
    ends with "..., X, X.". *)
Theorem latitude_text_repeats_reference (city : City) :
  In city DATA ->
  (forall d, In d (same_latitude DATA (latitude city)) -> d <> city ->
     ~ (qval (longitude d) == qval (longitude city))%Q) ->
  (length (same_latitude DATA (latitude city)) < NUM_CITIES)%nat ->
  exists init,
    latitude_cities DATA (latitude city) (longitude city) = Some (init ++ [city]) /\
    latitude_text DATA city =
    Some ("If you fly along this latitude in an easterly direction, you will look down on "
          ++ join ", " (map city_display (init ++ [city]))
          ++ ", " ++ city_display city ++ ".")%string.
Proof.
  intros Hc Hu Hlen. fold (band_lat city) in Hu, Hlen.
  destruct (band_lat_finite city) as (_ & Hlon & Hpop).
  destruct (finite_in_data city Hc) as [Hlatf Hlonf].
  destruct (top_by_population_sub _ Hpop) as (T & ET & Hincl & _ & _ & Hall).
  specialize (Hall ltac:(lia)).
  assert (HT : In city T)
    by (apply (Permutation_in _ Hall), same_latitude_self; assumption).
  assert (HlonT : Forall finite_lon T) by (eapply incl_Forall; eauto).
  destruct (sort_easterly_last T city HlonT HT) as (init & Ei).
  { intros d Hd. apply Hu, Hincl, Hd. }
  destruct (sort_easterly_perm T (longitude city) HlonT Hlonf) as (cs & Ecs & Hp).
  rewrite Ecs in Ei. injection Ei as ->.
  assert (Hc9 : (length (init ++ [city]) <= NUM_CITIES_LATITUDE)%nat).
  { rewrite <- (Permutation_length Hp), <- (Permutation_length Hall).
    unfold NUM_CITIES in Hlen. unfold NUM_CITIES_LATITUDE. lia. }
  exists init. unfold latitude_text, latitude_cities. fold (band_lat city).
  rewrite ET, Ecs, (firstn_all2 _ Hc9). split; reflexivity.
Qed.

Let band_lon (city : City) := same_longitude DATA (longitude city).

Lemma band_lon_finite (city : City) :
  Forall finite_lat (band_lon city) /\ Forall finite_pop (band_lon city).
Proof.
  destruct (finite_city_parts (band_lon city)) as (H1 & _ & H3);
    [apply Forall_filter_of, Hfin|]. auto.
Qed.

(** C9: when fewer than ten cities share the reference city's longitude
    band, none of them with its latitude, the longitude sentence lists
    them all with the two poles, the reference city last, and names it
    once more. *)
Theorem longitude_text_repeats_reference (city : City) :
  In city DATA ->
  (forall d, In d (same_longitude DATA (longitude city)) -> d <> city ->
     ~ (qval (latitude d) == qval (latitude city))%Q) ->
  (length (same_longitude DATA (longitude city)) < NUM_CITIES)%nat ->
  exists init,
    longitude_cities DATA (latitude city) (longitude city) = Some (init ++ [city]) /\
    longitude_text DATA city =
    Some ("If you fly along this longitude starting north, you will look down on "
          ++ join ", " (map city_display (init ++ [city]))
          ++ ", " ++ city_display city ++ ".")%string.
Proof.
  intros Hc Hu Hlen. fold (band_lon city) in Hu, Hlen.
  destruct (band_lon_finite city) as (Hlat & Hpop).
  destruct (finite_in_data city Hc) as [Hlatf Hlonf].
  destruct (top_by_population_sub _ Hpop) as (T & ET & Hincl & _ & _ & Hall).
  specialize (Hall ltac:(lia)).
  assert (HT : In city T)
    by (apply (Permutation_in _ Hall), same_longitude_self; assumption).
  assert (HlatT : Forall finite_lat T) by (eapply incl_Forall; eauto).
  destruct (sort_northerly_last T city HlatT HT) as (init & Ei).
  { intros d Hd. apply Hu, Hincl, Hd. }
  destruct (sort_northerly_perm T (latitude city) (longitude city) HlatT)
    as (n & o & so & Eo & Hp).
  rewrite Eo in Ei. injection Ei as Ei.
  assert (Hc11 : (length (init ++ [city]) <= NUM_CITIES_LONGITUDE)%nat).
  { rewrite <- Ei. simpl. rewrite !length_app. simpl. rewrite length_app. simpl.
    apply Permutation_length in Hp, Hall.
    rewrite !length_app in Hp. unfold NUM_CITIES, band_lon in *.
    unfold NUM_CITIES_LONGITUDE. lia. }
  exists init. unfold longitude_text, longitude_cities. fold (band_lon city).
  rewrite ET, Eo. cbn [app]. rewrite Ei, (firstn_all2 _ Hc11). split; reflexivity.
Qed.
(** C7: when at least ten cities share the reference city's longitude
    band, none of them with its latitude, the longitude sentence lists
    eleven stops (ten cities and the two poles) other than the reference
    city and then names it: it is named exactly once. *)
Theorem longitude_cities_reference_once (city : City) :
  NoDup DATA -> In city DATA -> city <> NORTH_POLE -> city <> SOUTH_POLE ->
  (forall d, In d (same_longitude DATA (longitude city)) -> d <> city ->
     ~ (qval (latitude d) == qval (latitude city))%Q) ->
  (NUM_CITIES <= length (same_longitude DATA (longitude city)))%nat ->
  exists cs, longitude_cities DATA (latitude city) (longitude city) = Some cs /\
    length cs = (NUM_CITIES + 2)%nat /\ ~ In city (firstn NUM_CITIES_LONGITUDE cs).
Proof.
  intros Hnd Hc Hnp Hsp Hu Hlen. fold (band_lon city) in Hu, Hlen.
  destruct (band_lon_finite city) as (Hlat & Hpop).
  destruct (top_by_population_sub _ Hpop) as (T & ET & Hincl & HndT & HlenT & _).
  rewrite Nat.min_l in HlenT by exact Hlen.
  assert (HlatT : Forall finite_lat T) by (eapply incl_Forall; eauto).
  specialize (HndT (NoDup_filter _ Hnd)).
  destruct (sort_northerly_perm T (latitude city) (longitude city) HlatT)
    as (n & o & so & Eo & Hp).
  exists (n ++ [NORTH_POLE] ++ o ++ [SOUTH_POLE] ++ so).
  unfold longitude_cities. fold (band_lon city). rewrite ET, Eo.
  split; [reflexivity|]. split.
  { apply Permutation_length in Hp. rewrite !length_app in *. simpl. unfold NUM_CITIES in *. lia. }
  set (np := fun c => if city_eq_dec c NORTH_POLE then false
                      else if city_eq_dec c SOUTH_POLE then false else true).
  assert (Hnpc : np city = true)
    by (unfold np; destruct (city_eq_dec city NORTH_POLE), (city_eq_dec city SOUTH_POLE);
        congruence).
  assert (Hpoles : filter np (n ++ [NORTH_POLE] ++ o ++ [SOUTH_POLE] ++ so)
                   = filter np (n ++ o ++ so)).
  { rewrite !filter_app. simpl. unfold np at 1 3.
    destruct (city_eq_dec NORTH_POLE NORTH_POLE) as [_|]; [|congruence].
    destruct (city_eq_dec SOUTH_POLE NORTH_POLE) as [E|_]; [discriminate E|].
    destruct (city_eq_dec SOUTH_POLE SOUTH_POLE) as [_|]; [|congruence].
    reflexivity. }
  assert (HndF : NoDup (filter np (n ++ o ++ so)))
    by exact (NoDup_filter _ (Permutation_NoDup Hp HndT)).
  destruct (in_dec city_eq_dec city T) as [HT|HT].
  - destruct (sort_northerly_last T city HlatT HT) as (init & Ei).
    { intros d Hd. apply Hu, Hincl, Hd. }
    rewrite Eo in Ei. injection Ei as Ei.
    change (n ++ [NORTH_POLE] ++ o ++ [SOUTH_POLE] ++ so)
      with (n ++ NORTH_POLE :: o ++ SOUTH_POLE :: so) in Hpoles |- *.
    rewrite Ei. rewrite <- Hpoles, Ei, filter_app in HndF. simpl in HndF. rewrite Hnpc in HndF.
    assert (Hl : length init = NUM_CITIES_LONGITUDE).
    { apply (f_equal (@length City)) in Ei. apply Permutation_length in Hp.
      rewrite !length_app in *. simpl in *. rewrite length_app in Ei. simpl in Ei.
      unfold NUM_CITIES, NUM_CITIES_LONGITUDE in *. lia. }
    rewrite <- Hl, firstn_snoc_length. intros Hin.
    apply NoDup_remove_2 in HndF. rewrite app_nil_r in HndF.
    apply HndF, filter_In. split; assumption.
  - apply not_in_firstn. intros Hin. apply HT.
    apply (Permutation_in _ (Permutation_sym Hp)).
    simpl in Hin. apply in_or_app.
    apply in_app_or in Hin as [Hin|Hin]; [left; exact Hin|right].
    destruct Hin as [Hin|Hin]; [congruence|].
    apply in_app_or in Hin as [Hin|Hin]; apply in_or_app; [left; exact Hin|right].
    destruct Hin as [Hin|Hin]; [congruence|exact Hin].
Qed.
(** Over a catalog without NaN, [location_text] never panics, for any city,
    finite or not: a NaN reference coordinate only empties its band. *)
Lemma location_text_some (city : City) : exists text, location_text DATA city = Some text.
Proof.
  destruct (band_lat_finite city) as (_ & Hlon & Hpop).
  destruct (band_lon_finite city) as (Hlat & Hpop').
  destruct (top_by_population_sub _ Hpop) as (T & ET & HinclT & _).
  destruct (top_by_population_sub _ Hpop') as (U & EU & HinclU & _).
  destruct (sort_easterly_total T (longitude city)) as (cs & Ecs);
    [eapply incl_Forall; eauto|].
  destruct (sort_northerly_perm U (latitude city) (longitude city)) as (n & o & so & Eo & _);
    [eapply incl_Forall; eauto|].
  unfold location_text, latitude_text, longitude_text, latitude_cities, longitude_cities.
  fold (band_lat city) (band_lon city). rewrite ET, Ecs, EU, Eo. eauto.
Qed.
End Listing.

(** ** The random pick *)

(** The random source of [choose]: [random_range n] draws an index for a
    slice of length [n] and returns the next state of the generator. *)
Class RandomSource (R : Type) := random_range : nat -> R -> nat * R.

(** Its contract: the index is in range. *)
Class RandomSourceLaws (R : Type) `{RandomSource R} :=
  random_range_lt : forall n r, (0 < n)%nat -> (fst (random_range n r) < n)%nat.

(** [IndexedRandom::choose] *)
Definition choose {R A : Type} `{RandomSource R} (l : list A) (rng : R)
  : option A * R :=
  match l with
  | [] => (None, rng)
  | _ => let '(i, rng') := random_range (length l) rng in (nth_error l i, rng')
  end.

(** [random_location]: [DATA.choose(&mut rng).unwrap()], then [location_text]. *)
Definition random_location {R : Type} `{RandomSource R} (DATA : list City) (rng : R)
  : option string * R :=
  let '(city, rng') := choose DATA rng in
  ((city <- city ;; location_text DATA city), rng').

(** [choose] on a non-empty slice returns one of its items. *)
Lemma choose_in {R A : Type} `{RandomSourceLaws R} (l : list A) (rng : R) :
  l <> [] -> exists x, In x l /\ fst (choose l rng) = Some x.
Proof.
  destruct l as [|c cs]; [congruence|]. intros _. unfold choose.
  destruct (random_range (length (c :: cs)) rng) as [i rng'] eqn:E.
  assert (Hi : (i < length (c :: cs))%nat).
  { pose proof (random_range_lt (length (c :: cs)) rng) as Hlt.
    rewrite E in Hlt. apply Hlt. simpl. lia. }
  destruct (nth_error (c :: cs) i) as [city|] eqn:En.
  - exists city. split; [eapply nth_error_In; exact En|reflexivity].
  - apply nth_error_None in En. lia.
Qed.

Lemma random_location_choose {R : Type} `{RandomSource R} (DATA : list City) (rng : R)
    (city : City) :
  fst (choose DATA rng) = Some city ->
  fst (random_location DATA rng) = location_text DATA city.
Proof.
  unfold random_location. destruct (choose DATA rng) as [o r]. simpl. intros ->. reflexivity.
Qed.

(** C22: [random_location] panics on an empty catalog and otherwise
    narrates a city of the catalog, whatever the random source, as long as
    it draws indices in range. *)
Theorem random_location_spec {R : Type} `{RandomSourceLaws R}
    (DATA : list City) (rng : R) :
  match DATA with
  | [] => fst (random_location DATA rng) = None
  | _ => exists city, In city DATA /\ fst (random_location DATA rng) = location_text DATA city
  end.
Proof.
  destruct DATA as [|c cs]; [reflexivity|].
  destruct (choose_in (c :: cs) rng) as (city & Hin & Ec); [discriminate|].
  exists city. split; [exact Hin|]. apply random_location_choose, Ec.
Qed.

(** C26: over a catalog without NaN coordinates or populations,
    [location_text] returns a text for every city: the narrative functions
    are total on a valid catalog. *)
Theorem location_text_total (DATA : list City) (city : City) :
  Forall (fun c => finite_city c = true) DATA ->
  exists text, location_text DATA city = Some text.
Proof. intros Hfin. apply location_text_some, Hfin. Qed.

(** C27: on a non-empty catalog without NaN, [random_location] never
    panics: it returns the text of a city of the catalog. *)
Theorem random_location_total {R : Type} `{RandomSourceLaws R}
    (DATA : list City) (rng : R) :
  DATA <> [] -> Forall (fun c => finite_city c = true) DATA ->
  exists city text, In city DATA /\ location_text DATA city = Some text /\
    fst (random_location DATA rng) = Some text.
Proof.
  intros Hne Hfin. destruct (choose_in DATA rng Hne) as (city & Hin & Ec).
  destruct (location_text_some DATA Hfin city) as (text & Et).
  exists city, text. split; [exact Hin|]. split; [exact Et|].
  rewrite (random_location_choose _ _ _ Ec). exact Et.
Qed.

(** C28: a NaN population is caught only by the sort: [location_text]
    panics as soon as the reference city's latitude band holds two cities
    and one of them has a NaN population, though the loader accepted it. *)
Theorem location_text_population_nan (DATA : list City) (city c : City) :
  In c (same_latitude DATA (latitude city)) -> is_nan (population c) = true ->
  (2 <= length (same_latitude DATA (latitude city)))%nat ->
  location_text DATA city = None.
Proof.
  intros Hc Hn Hl.
  assert (E : sort_by (fun a b => partial_cmp (population b) (population a))
                (same_latitude DATA (latitude city)) = None)
    by (apply (sort_by_none_iff _ (KO := desc_order population)); eauto).
  unfold location_text, latitude_text, latitude_cities, top_by_population.
  rewrite E. reflexivity.
Qed.

(** ** The repository's scenarios on the sample catalog *)

(** A generator that counts its draws, for the witnesses. *)
#[local] Instance counter_source : RandomSource nat :=
  fun n r => (Nat.modulo r n, S r).

#[local] Instance counter_source_laws : RandomSourceLaws nat.
Proof. intros n r Hn. apply Nat.mod_upper_bound. lia. Qed.

Lemma random_location_spec_witness :
  exists city, In city SAMPLE_DATA /\
    fst (random_location SAMPLE_DATA 8%nat) = location_text SAMPLE_DATA city.
Proof. exact (random_location_spec SAMPLE_DATA 8%nat). Defined.

Lemma finite_city_check (l : list City) :
  forallb finite_city l = true -> Forall (fun c => finite_city c = true) l.
Proof. apply forallb_Forall. auto. Qed.

Lemma latitude_cities_reference_once_witness :
  exists cs, latitude_cities SAMPLE_DATA (latitude Pittsburgh) (longitude Pittsburgh) = Some cs /\
    length cs = NUM_CITIES /\ ~ In Pittsburgh (firstn NUM_CITIES_LATITUDE cs).
Proof.
  apply latitude_cities_reference_once.
  - apply finite_city_check. by_compute.
  - apply (nodupb_NoDup city_eq_dec). by_compute.
  - apply (in_dec_In city_eq_dec). by_compute.
  - apply (unique_key_check (fun x => qval (longitude x)) city_eq_dec). by_compute.
  - apply Nat.leb_le. by_compute.
Defined.

Lemma longitude_cities_reference_once_witness :
  exists cs, longitude_cities SAMPLE_DATA (latitude Pittsburgh) (longitude Pittsburgh) = Some cs /\
    length cs = (NUM_CITIES + 2)%nat /\ ~ In Pittsburgh (firstn NUM_CITIES_LONGITUDE cs).
Proof.
  apply longitude_cities_reference_once.
  - apply finite_city_check. by_compute.
  - apply (nodupb_NoDup city_eq_dec). by_compute.
  - apply (in_dec_In city_eq_dec). by_compute.
  - discriminate.
  - discriminate.
  - apply (unique_key_check (fun x => qval (latitude x)) city_eq_dec). by_compute.
  - apply Nat.leb_le. by_compute.
Defined.

Lemma latitude_text_repeats_reference_witness :
  exists init,
    latitude_cities SAMPLE_DATA (latitude Jaque) (longitude Jaque) = Some (init ++ [Jaque]) /\
    latitude_text SAMPLE_DATA Jaque =
    Some ("If you fly along this latitude in an easterly direction, you will look down on "
          ++ join ", " (map city_display (init ++ [Jaque]))
          ++ ", " ++ city_display Jaque ++ ".")%string.
Proof.
  apply latitude_text_repeats_reference.
  - apply finite_city_check. by_compute.
  - apply (in_dec_In city_eq_dec). by_compute.
  - apply (unique_key_check (fun x => qval (longitude x)) city_eq_dec). by_compute.
  - apply Nat.ltb_lt. by_compute.
Defined.

Lemma longitude_text_repeats_reference_witness :
  exists init,
    longitude_cities SAMPLE_DATA (latitude Jaque) (longitude Jaque) = Some (init ++ [Jaque]) /\
    longitude_text SAMPLE_DATA Jaque =
    Some ("If you fly along this longitude starting north, you will look down on "
          ++ join ", " (map city_display (init ++ [Jaque]))
          ++ ", " ++ city_display Jaque ++ ".")%string.
Proof.
  apply longitude_text_repeats_reference.
  - apply finite_city_check. by_compute.
  - apply (in_dec_In city_eq_dec). by_compute.
  - apply (unique_key_check (fun x => qval (latitude x)) city_eq_dec). by_compute.
  - apply Nat.ltb_lt. by_compute.
Defined.

(** A city of the catalog whose population failed to parse as a number. *)
Definition Nowhere : City := {|
  name := "Nowhere"; latitude := Num 40.3; longitude := Num (-80);
  population := NaN; country := "United States of America"; province := "Pennsylvania" |}%string.

Lemma location_text_total_witness :
  exists text, location_text SAMPLE_DATA Jaque = Some text.
Proof. apply location_text_total. apply finite_city_check. by_compute. Defined.

Lemma random_location_total_witness :
  exists city text, In city SAMPLE_DATA /\ location_text SAMPLE_DATA city = Some text /\
    fst (random_location SAMPLE_DATA 8%nat) = Some text.
Proof.
  apply random_location_total; [discriminate|]. apply finite_city_check. by_compute.
Defined.

Lemma location_text_population_nan_witness :
  location_text [Pittsburgh; Nowhere] Pittsburgh = None.
Proof.
  apply (location_text_population_nan _ _ Nowhere).
  - apply (in_dec_In city_eq_dec). by_compute.
  - reflexivity.
  - apply Nat.leb_le. by_compute.
Defined.
