(* ===== verification/Lines.v ===== *)
(** * The toot as four lines

    [location_text] joins four lines with a line feed ([nl]): the
    greeting, the coordinates, the latitude sentence and the longitude
    sentence.  This file splits a string at its line feeds
    ([split_lines], the reading of a multi-line text) and proves that the
    toot has exactly these four lines when no city name of the catalog,
    nor the reference city's province and country, holds a line feed: the
    numbers, the fixed phrases and the poles never do.  The CSV format
    allows a line feed inside a quoted field, and the loader keeps it, so
    the hypothesis is a real precondition of the four-line layout.  It also
    shows that the lists the two sentences are built from hold only cities
    of the reference's band (and the two poles, for the longitude): the
    ranking and the directional sorts keep the band filter's choice. *)

From Stdlib Require Import String Ascii List Bool ZArith QArith DecimalString Permutation.
From S2P Require Import Prelude F64 City Samples StableSort Bands Ranking Directional Render.
Import ListNotations.

Definition is_lf (c : ascii) : bool := Ascii.eqb c (ascii_of_nat 10).

Fixpoint has_lf (s : string) : bool :=
  match s with
  | EmptyString => false
  | String c s' => is_lf c || has_lf s'
  end.

(** The lines of a text: the pieces between its line feeds. *)
Fixpoint split_lines (s : string) : list string :=
  match s with
  | EmptyString => [EmptyString]
  | String c s' =>
      if is_lf c then EmptyString :: split_lines s'
      else match split_lines s' with
           | l :: ls => String c l :: ls
           | [] => [String c EmptyString]
           end
  end.

(** [a] glued in front of the first line. *)
Definition prepend (a : string) (ls : list string) : list string :=
  match ls with
  | l :: ls' => (a ++ l)%string :: ls'
  | [] => [a]
  end.

(** ** Line feeds in appended strings *)

Lemma has_lf_app (a b : string) : has_lf (a ++ b) = has_lf a || has_lf b.
Proof. induction a as [|c a IH]; simpl; [reflexivity|]. now rewrite IH, orb_assoc. Qed.

Lemma string_app_empty (a : string) : (a ++ EmptyString)%string = a.
Proof. induction a as [|c a IH]; simpl; [reflexivity|]. now rewrite IH. Qed.

Lemma has_lf_digits (d : Decimal.uint) : has_lf (NilEmpty.string_of_uint d) = false.
Proof. induction d; simpl; rewrite ?IHd; reflexivity. Qed.

Lemma has_lf_uint (d : Decimal.uint) : has_lf (NilZero.string_of_uint d) = false.
Proof. unfold NilZero.string_of_uint. destruct d; [reflexivity|..]; apply has_lf_digits. Qed.

Lemma has_lf_string_of_Z (z : Z) : has_lf (string_of_Z z) = false.
Proof.
  unfold string_of_Z, NilZero.string_of_int.
  destruct (Z.to_int z); simpl; apply has_lf_uint.
Qed.

Lemma has_lf_f64_display (x : f64) : has_lf (f64_display x) = false.
Proof. destruct x; [apply has_lf_string_of_Z|reflexivity]. Qed.

#[export] Hint Rewrite has_lf_app has_lf_f64_display : geo_rw.

Lemma has_lf_degrees (x : f64) :
  has_lf (latitude_in_degrees x) = false /\ has_lf (longitude_in_degrees x) = false.
Proof.
  unfold latitude_in_degrees, longitude_in_degrees, degrees_text.
  destruct (decimal_to_degrees_minutes x) as [d m].
  destruct (x >? Num 0%Q)%f64; autorewrite with geo_rw; split; reflexivity.
Qed.

Lemma has_lf_join (sep : string) (l : list string) :
  has_lf sep = false -> Forall (fun s => has_lf s = false) l ->
  has_lf (join sep l) = false.
Proof.
  intros Hs. induction 1 as [|x l Hx Hl IH]; [reflexivity|].
  destruct l as [|y l']; [exact Hx|].
  change (join sep (x :: y :: l')) with (x ++ sep ++ join sep (y :: l'))%string.
  rewrite !has_lf_app, Hx, Hs, IH. reflexivity.
Qed.

(** ** Splitting at line feeds *)

Lemma split_lines_no_lf (a : string) : has_lf a = false -> split_lines a = [a].
Proof.
  induction a as [|c a IH]; simpl; [reflexivity|].
  intros H. apply orb_false_iff in H as [Hc Ha]. now rewrite Hc, IH.
Qed.

(** A text has at least one line. *)
Lemma split_lines_cons (s : string) : exists l ls, split_lines s = l :: ls.
Proof.
  induction s as [|c s (l & ls & IH)]; simpl; [eauto|].
  rewrite IH. destruct (is_lf c); eauto.
Qed.

Lemma split_lines_prefix (a b : string) :
  has_lf a = false -> split_lines (a ++ b) = prepend a (split_lines b).
Proof.
  destruct (split_lines_cons b) as (l & ls & Eb).
  induction a as [|c a IH]; simpl; intros H; rewrite ?Eb; [reflexivity|].
  apply orb_false_iff in H as [Hc Ha]. rewrite Hc, IH, Eb by exact Ha. reflexivity.
Qed.

Lemma split_lines_nl (b : string) : split_lines (nl ++ b) = EmptyString :: split_lines b.
Proof. reflexivity. Qed.

Lemma in_firstn {A : Type} (x : A) (n : nat) (l : list A) : In x (firstn n l) -> In x l.
Proof. intros H. rewrite <- (firstn_skipn n l). apply in_or_app. now left. Qed.

Lemma same_latitude_incl (DATA : list City) (lat : f64) : incl (same_latitude DATA lat) DATA.
Proof. intros x Hx. now apply filter_In in Hx. Qed.

Lemma same_longitude_incl (DATA : list City) (long : f64) :
  incl (same_longitude DATA long) DATA.
Proof. intros x Hx. now apply filter_In in Hx. Qed.

Lemma some_inj {A : Type} (x y : A) : Some x = Some y -> x = y.
Proof. congruence. Qed.

(** The cities a sentence lists come from the band of the reference, or
    are the poles. *)
Lemma latitude_cities_band (DATA : list City) (lat lon : f64) (cs : list City) :
  latitude_cities DATA lat lon = Some cs -> incl cs (same_latitude DATA lat).
Proof.
  unfold latitude_cities.
  destruct (top_by_population _) as [top|] eqn:Et; [|discriminate].
  intros Ec x Hx.
  apply (Permutation_in _ (Permutation_sym (sort_easterly_incl _ _ _ Ec))) in Hx.
  apply (top_by_population_incl _ _ Et), Hx.
Qed.

Lemma longitude_cities_band (DATA : list City) (lat lon : f64) (cs : list City) :
  longitude_cities DATA lat lon = Some cs ->
  incl cs (NORTH_POLE :: SOUTH_POLE :: same_longitude DATA lon).
Proof.
  unfold longitude_cities.
  destruct (top_by_population _) as [top|] eqn:Et; [|discriminate].
  intros Ec x Hx. apply (sort_northerly_incl _ _ _ _ Ec) in Hx.
  destruct Hx as [<-|[<-|Hx]]; [now left|now right; left|right; right].
  apply (top_by_population_incl _ _ Et), Hx.
Qed.

Lemma latitude_cities_incl (DATA : list City) (lat lon : f64) (cs : list City) :
  latitude_cities DATA lat lon = Some cs -> incl cs DATA.
Proof.
  intros E x Hx. apply (same_latitude_incl DATA lat), (latitude_cities_band _ _ _ _ E), Hx.
Qed.

Lemma longitude_cities_incl (DATA : list City) (lat lon : f64) (cs : list City) :
  longitude_cities DATA lat lon = Some cs -> incl cs (NORTH_POLE :: SOUTH_POLE :: DATA).
Proof.
  intros E x Hx. apply (longitude_cities_band _ _ _ _ E) in Hx.
  destruct Hx as [<-|[<-|Hx]]; [now left|now right; left|right; right].
  apply (same_longitude_incl DATA lon), Hx.
Qed.

Section Toot.
Variable DATA : list City.
Hypothesis Hnames : Forall (fun c => has_lf (name c) = false) DATA.
Variable city : City.
Hypothesis Hname : has_lf (name city) = false.

(** The names listed in a sentence are names of the catalog or a pole. *)
Lemma names_no_lf (cs : list City) :
  incl cs (NORTH_POLE :: SOUTH_POLE :: DATA) ->
  Forall (fun s => has_lf s = false) (map city_display cs).
Proof.
  intros H. apply Forall_map, Forall_forall. intros c Hc. apply H in Hc.
  destruct Hc as [<-|[<-|Hc]]; [reflexivity|reflexivity|].
  unfold city_display. eapply Forall_forall in Hnames; eauto.
Qed.

(** The sentence around the listed names has no line feed. *)
Lemma sentence_no_lf (prefix : string) (n : nat) (cs : list City) :
  has_lf prefix = false -> incl cs (NORTH_POLE :: SOUTH_POLE :: DATA) ->
  has_lf (prefix ++ join ", " (map city_display (firstn n cs))
          ++ ", " ++ city_display city ++ ".")%string = false.
Proof.
  intros Hp Hcs. rewrite !has_lf_app, Hp, has_lf_join; [|reflexivity|].
  - unfold city_display. rewrite Hname. reflexivity.
  - apply names_no_lf. intros x Hx. apply Hcs, (in_firstn x n), Hx.
Qed.

Lemma latitude_text_no_lf (t : string) : latitude_text DATA city = Some t -> has_lf t = false.
Proof.
  unfold latitude_text.
  destruct (latitude_cities DATA _ _) as [cs|] eqn:Ec; [|discriminate].
  intros H. apply some_inj in H. subst t. apply sentence_no_lf; [reflexivity|].
  intros x Hx. right. right. apply (latitude_cities_incl _ _ _ _ Ec), Hx.
Qed.

Lemma longitude_text_no_lf (t : string) : longitude_text DATA city = Some t -> has_lf t = false.
Proof.
  unfold longitude_text.
  destruct (longitude_cities DATA _ _) as [cs|] eqn:Ec; [|discriminate].
  intros H. apply some_inj in H. subst t. apply sentence_no_lf; [reflexivity|].
  apply (longitude_cities_incl _ _ _ _ Ec).
Qed.
End Toot.

(** The text of [location_text], split at its line feeds. *)
Lemma location_text_split (DATA : list City) (city : City) (t : string) :
  Forall (fun c => has_lf (name c) = false) DATA ->
  has_lf (name city) = false -> has_lf (province city) = false ->
  has_lf (country city) = false ->
  location_text DATA city = Some t ->
  exists lat lon,
    latitude_text DATA city = Some lat /\ longitude_text DATA city = Some lon /\
    split_lines t =
    [("You are now in " ++ city_display city ++ ", " ++ province city ++ ", "
      ++ country city)%string;
     (latitude_in_degrees (latitude city) ++ " " ++ longitude_in_degrees (longitude city))%string;
     lat; lon].
Proof.
  intros Hn Hc Hp Hy. unfold location_text.
  destruct (latitude_text DATA city) as [lat|] eqn:El; [|discriminate].
  destruct (longitude_text DATA city) as [lon|] eqn:Eo; [|discriminate].
  intros H. apply some_inj in H. subst t. exists lat, lon. split; [reflexivity|]. split; [reflexivity|].
  pose proof (latitude_text_no_lf DATA Hn city Hc lat El) as Hl.
  pose proof (longitude_text_no_lf DATA Hn city Hc lon Eo) as Hr.
  destruct (has_lf_degrees (latitude city)) as [Hd _].
  destruct (has_lf_degrees (longitude city)) as [_ He].
  repeat first [rewrite split_lines_nl
               | rewrite split_lines_prefix by first [reflexivity|assumption]].
  rewrite (split_lines_no_lf lon Hr). cbn [prepend]. rewrite !string_app_empty. reflexivity.
Qed.

(** C30: when no city name of the catalog, nor the reference city's
    province and country, holds a line feed, the text of [location_text]
    has exactly four lines: the greeting, the coordinates, the latitude
    sentence and the longitude sentence. *)
Theorem location_text_lines (DATA : list City) (city : City) (t : string) :
  Forall (fun c => has_lf (name c) = false) DATA ->
  has_lf (name city) = false -> has_lf (province city) = false ->
  has_lf (country city) = false ->
  location_text DATA city = Some t ->
  exists lat lon,
    latitude_text DATA city = Some lat /\ longitude_text DATA city = Some lon /\
    split_lines t =
    [("You are now in " ++ city_display city ++ ", " ++ province city ++ ", "
      ++ country city)%string;
     (latitude_in_degrees (latitude city) ++ " " ++ longitude_in_degrees (longitude city))%string;
     lat; lon].
Proof. apply location_text_split. Qed.

(** C25: the cities a sentence lists are those of the reference's band:
    every city of the latitude sentence's list is a city of the catalog
    strictly within 0.5 degree of the reference latitude, and every city of
    the longitude sentence's list is one of the two poles or a city of the
    catalog strictly within 0.5 degree of the reference longitude or of
    its opposite meridian. *)
Theorem sentence_cities_in_band (DATA : list City) (lat lon : f64) (cs : list City) :
  (latitude_cities DATA lat lon = Some cs ->
   Forall (fun c => In c DATA /\ within_half lat (latitude c)) cs) /\
  (longitude_cities DATA lat lon = Some cs ->
   Forall (fun c => c = NORTH_POLE \/ c = SOUTH_POLE \/
             (In c DATA /\ (within_half lon (longitude c) \/
                            within_half (opposite_longitude lon) (longitude c)))) cs).
Proof.
  split; intros E; apply Forall_forall; intros c Hc.
  - apply (latitude_cities_band _ _ _ _ E), filter_In in Hc as [Hd Hb].
    unfold in_latitude_band in Hb. rewrite open_band_iff in Hb. auto.
  - apply (longitude_cities_band _ _ _ _ E) in Hc as [<-|[<-|Hc]]; auto.
    apply filter_In in Hc as [Hd Hb]. unfold in_longitude_band in Hb.
    rewrite orb_true_iff, !open_band_iff in Hb. auto.
Qed.

(** ** Witness on the sample catalog *)

Lemma name_check (l : list City) :
  forallb (fun c => negb (has_lf (name c))) l = true ->
  Forall (fun c => has_lf (name c) = false) l.
Proof. apply forallb_Forall. intros x Hx. now apply negb_true_iff in Hx. Qed.

Lemma location_text_lines_witness :
  exists t, location_text SAMPLE_DATA Pittsburgh = Some t /\
  exists lat lon,
    latitude_text SAMPLE_DATA Pittsburgh = Some lat /\
    longitude_text SAMPLE_DATA Pittsburgh = Some lon /\
    split_lines t =
    [("You are now in " ++ city_display Pittsburgh ++ ", " ++ province Pittsburgh ++ ", "
      ++ country Pittsburgh)%string;
     (latitude_in_degrees (latitude Pittsburgh) ++ " "
      ++ longitude_in_degrees (longitude Pittsburgh))%string;
     lat; lon].
Proof.
  destruct (location_text_some SAMPLE_DATA (finite_city_check SAMPLE_DATA
              ltac:(by_compute)) Pittsburgh) as [t Et].
  exists t. split; [exact Et|].
  apply (location_text_lines SAMPLE_DATA Pittsburgh t); try reflexivity; [|exact Et].
  apply name_check. by_compute.
Defined.

Lemma sentence_cities_in_band_witness :
  exists cs, longitude_cities SAMPLE_DATA (latitude Pittsburgh) (longitude Pittsburgh) = Some cs /\
  Forall (fun c => c = NORTH_POLE \/ c = SOUTH_POLE \/
            (In c SAMPLE_DATA /\
             (within_half (longitude Pittsburgh) (longitude c) \/
              within_half (opposite_longitude (longitude Pittsburgh)) (longitude c)))) cs.
Proof.
  destruct (longitude_cities SAMPLE_DATA (latitude Pittsburgh) (longitude Pittsburgh))
    as [cs|] eqn:E; [|vm_compute in E; discriminate].
  exists cs. split; [reflexivity|].
  exact (proj2 (sentence_cities_in_band SAMPLE_DATA (latitude Pittsburgh) (longitude Pittsburgh) cs) E).
Defined.
