(* ===== verification/Client.v ===== *)
(** * The posting clients [bin/toot.rs]

    Both binaries read their configuration from the environment (after
    [dotenv]), obtain a Mastodon client, either from stored credentials
    ([from_configuration]) or by registering an application and asking the
    user for an authorisation code ([register_and_post]), and post the text
    of [random_location] as a new status.  [main] picks the path by whether
    [CLIENT_ID] is set.

    The model is a writer and panic monad [M]: a computation returns the
    trace of its observable events (lines printed, calls to the server,
    the read of standard input) and either a value or the [Panic] that
    stopped it.  The answers of the outside world (environment, CSV file,
    random generator, server, terminal) are a [World] record of functions
    of the calls' arguments.  [random_location_io] composes the
    development: the first access to [DATA] runs [DataLoader.load_data]
    (its log goes to the trace, its error to [unwrap]), then
    [Render.random_location] picks and narrates a city.

    Module [Client2] is [src/src/src/bin/toot.rs] (crate
    [mastodon_toot_client2], the newer [mammut] API, errors reported with
    [panic!]); module [Client1] is [src/src/bin/toot.rs] (crate
    [mastodon_bot], the older API whose constructors can fail, errors
    reported with [expect]).  The [Debug] output of the library's structs
    is kept as the events [PrintDebugData] and [PrintStatusBuilder]
    rather than as text. *)

From Stdlib Require Import String Ascii List Bool Arith Lia.
From S2P Require Import Prelude F64 City Samples Loader Render.
Import ListNotations.
Import DataLoader.

(** What stops the program. *)
Inductive Panic : Type :=
| Panicked (msg : string)        (* panic!("...", ..) *)
| Expect (msg e : string)        (* .expect(msg) on Err(e) *)
| UnwrapNone                     (* Option::unwrap on None *)
| UnwrapErr (e : string).        (* Result::unwrap on Err(e) *)

(** [mammut::Data]: the credentials of a client. *)
Record Data : Set := {
  base : string;
  client_id : string;
  client_secret : string;
  redirect : string;
  token : string
}.

(** The calls that leave the process: to the server, and the read of the
    terminal. *)
Inductive Call : Set :=
| Register (base : string)       (* registration.register(app) *)
| Authorise                      (* registration.authorise() *)
| ReadLine                       (* std::io::stdin().read_line(..) *)
| CreateToken (code : string)    (* registration.create_access_token(code) *)
| NewStatus (data : Data) (status : string).  (* mastodon.new_status(sb) *)

Inductive Event : Set :=
| Print (st : Stream) (line : string)   (* println! / eprintln! *)
| PrintDebugData (data : Data)          (* println!("{:#?}", mastodon.data) *)
| PrintStatusBuilder (status : string)  (* println!("StatusBuilder = {:#?}", sb) *)
| Ext (c : Call).

(** ** The monad *)

Definition M (A : Type) : Type := list Event * result A Panic.

Definition ret {A : Type} (a : A) : M A := ([], Ok a).

Definition bind {A B : Type} (m : M A) (k : A -> M B) : M B :=
  match m with
  | (t, Ok a) => let '(t', r) := k a in (t ++ t', r)
  | (t, Err p) => (t, Err p)
  end.

Declare Scope client_scope.
Delimit Scope client_scope with client.
Notation "x <- m ;; k" := (bind m (fun x => k))
  (at level 61, m at next level, right associativity) : client_scope.
Notation "m ;; k" := (bind m (fun _ => k))
  (at level 61, right associativity) : client_scope.
Local Open Scope client_scope.
Local Open Scope string_scope.

Definition emit (e : Event) : M unit := ([e], Ok tt).
Definition println (s : string) : M unit := emit (Print Stdout s).
Definition panic {A : Type} (p : Panic) : M A := ([], Err p).

(** A [Result] of the library, its error turned into a panic by [f]. *)
Definition lift {A E : Type} (r : result A E) (f : E -> Panic) : M A :=
  match r with
  | Ok a => ret a
  | Err e => panic (f e)
  end.

(** ** The world *)

Record World (R : Type) := {
  env_var : string -> option string;      (* std::env::var, after dotenv *)
  csv : FileOpen;                         (* what load_data finds *)
  rng : R;                                (* rand::rng() *)
  registration_new : string -> result unit string;  (* Registration::new (older API) *)
  register : string -> result unit string;
  authorise : result string string;
  stdin_line : result string string;      (* the line read, line feed included *)
  create_access_token : string -> result Data string;
  from_data : Data -> result unit string; (* Mastodon::from_data (older API) *)
  new_status : Data -> string -> result unit string
}.
Arguments env_var {R} w.
Arguments csv {R} w.
Arguments rng {R} w.
Arguments registration_new {R} w.
Arguments register {R} w.
Arguments authorise {R} w.
Arguments stdin_line {R} w.
Arguments create_access_token {R} w.
Arguments from_data {R} w.
Arguments new_status {R} w.

(** [str::trim] on the ASCII white space (tab, line feed, vertical tab,
    form feed, carriage return, space). *)
Definition is_ws (c : ascii) : bool :=
  let n := nat_of_ascii c in (Nat.leb 9 n && Nat.leb n 13) || Nat.eqb n 32.

Fixpoint trim_start (s : string) : string :=
  match s with
  | EmptyString => EmptyString
  | String c s' => if is_ws c then trim_start s' else s
  end.

Fixpoint trim_end (s : string) : string :=
  match s with
  | EmptyString => EmptyString
  | String c s' =>
      match trim_end s' with
      | EmptyString => if is_ws c then EmptyString else String c EmptyString
      | r => String c r
      end
  end.

Definition trim (s : string) : string := trim_end (trim_start s).

Section Program.
Context {R : Type} `{RandomSource R}.
Variable w : World R.

(** [fn env(s)]: the variable, or a panic naming it. *)
Definition env (s : string) : M string :=
  match env_var w s with
  | Some v => ret v
  | None => panic (Panicked ("must have `" ++ s ++ "` definded")%string)
  end.

(** [lib.rs]'s [random_location()]: the first access to [DATA] runs
    [load_data().unwrap()], printing the loader's log; then [choose] and
    [location_text], whose panics are [unwrap]s of [None]. *)
Definition random_location_io : M string :=
  let '(res, log) := load_data (csv w) in
  (map (fun l => Print (fst l) (snd l)) log, Ok tt) ;;
  cities <- lift res UnwrapErr ;;
  match fst (random_location cities (rng w)) with
  | Some status => ret status
  | None => panic UnwrapNone
  end.

Definition oob : string := "urn:ietf:wg:oauth:2.0:oob".
End Program.

(** ** [src/src/src/bin/toot.rs] *)
Module Client2.
Section WithWorld.
Context {R : Type} `{RandomSource R}.
Variable w : World R.

Definition register_and_post : M unit :=
  b <- env w "BASE" ;;
  emit (Ext (Register b)) ;;
  match register w b with
  | Ok _ => println "App registered successfully"
  | Err e => panic (Panicked ("Register failed: " ++ e))
  end ;;
  emit (Ext Authorise) ;;
  url <- lift (authorise w) (fun e => Panicked ("Registration authorize failed: " ++ e)) ;;
  println ("Please visit " ++ url ++ ", authorise and enter the code it gives you: ") ;;
  emit (Ext ReadLine) ;;
  code <- lift (stdin_line w) (fun e => Panicked ("Reading code failed: " ++ e)) ;;
  emit (Ext (CreateToken (trim code))) ;;
  data <- lift (create_access_token w (trim code))
            (fun e => Panicked ("Creating access token failed: " ++ e)) ;;
  emit (PrintDebugData data) ;;
  status <- random_location_io w ;;
  emit (PrintStatusBuilder status) ;;
  emit (Ext (NewStatus data status)) ;;
  match new_status w data status with
  | Ok _ => println "Status posted successfully"
  | Err e => panic (Panicked ("Could not post status: " ++ e))
  end ;;
  println "Done!".

Definition from_configuration : M unit :=
  b <- env w "BASE" ;;
  id <- env w "CLIENT_ID" ;;
  secret <- env w "CLIENT_SECRET" ;;
  tok <- env w "TOKEN" ;;
  let data := {| base := b; client_id := id; client_secret := secret;
                 redirect := oob; token := tok |} in
  status <- random_location_io w ;;
  println ("Posting " ++ status) ;;
  emit (PrintStatusBuilder status) ;;
  emit (Ext (NewStatus data status)) ;;
  match new_status w data status with
  | Ok _ => println "Status posted successfully"
  | Err e => panic (Panicked ("Could not post status: " ++ e))
  end ;;
  println "Done!".

Definition main : M unit :=
  match env_var w "CLIENT_ID" with
  | Some _ =>
      println ">>>>> About to toot using `.env` file ... <<<<<<<<" ;;
      from_configuration
  | None =>
      println ">>>>> About to toot from new client registration ... <<<<<<<<" ;;
      register_and_post
  end.
End WithWorld.
End Client2.

(** ** [src/src/bin/toot.rs] *)
Module Client1.
Section WithWorld.
Context {R : Type} `{RandomSource R}.
Variable w : World R.

Definition register_and_post : M unit :=
  b <- env w "BASE" ;;
  lift (registration_new w b) (Expect "Registration creation failed") ;;
  emit (Ext (Register b)) ;;
  lift (register w b) (Expect "Register failed") ;;
  emit (Ext Authorise) ;;
  url <- lift (authorise w) (Expect "Registration authorize failed") ;;
  println ("Please visit " ++ url ++ ", authorise and enter the code it gives you: ") ;;
  emit (Ext ReadLine) ;;
  code <- lift (stdin_line w) (Expect "Reading code failed") ;;
  emit (Ext (CreateToken code)) ;;
  data <- lift (create_access_token w code) (Expect "Creating access token failed") ;;
  emit (PrintDebugData data) ;;
  status <- random_location_io w ;;
  emit (PrintStatusBuilder status) ;;
  emit (Ext (NewStatus data status)) ;;
  lift (new_status w data status) (Expect "Could not post status") ;;
  println "Done!".

Definition from_configuration : M unit :=
  b <- env w "BASE" ;;
  id <- env w "CLIENT_ID" ;;
  secret <- env w "CLIENT_SECRET" ;;
  tok <- env w "TOKEN" ;;
  let data := {| base := b; client_id := id; client_secret := secret;
                 redirect := oob; token := tok |} in
  lift (from_data w data) (Expect "Could not create Mastodon instance from data") ;;
  status <- random_location_io w ;;
  println ("Posting " ++ status) ;;
  emit (PrintStatusBuilder status) ;;
  emit (Ext (NewStatus data status)) ;;
  lift (new_status w data status) (Expect "Could not post status") ;;
  println "Done!".

Definition main : M unit :=
  match env_var w "CLIENT_ID" with
  | Some _ =>
      println ">>>>> About to toot using `.env` file ... <<<<<<<<" ;;
      from_configuration
  | None =>
      println ">>>>> About to toot from new client registration ... <<<<<<<<" ;;
      register_and_post
  end.
End WithWorld.
End Client1.

Local Open Scope list_scope.

(** ** Traces *)

(** The calls of a trace, in order. *)
Fixpoint calls (t : list Event) : list Call :=
  match t with
  | [] => []
  | Ext c :: t' => c :: calls t'
  | _ :: t' => calls t'
  end.

(** The order of the registration protocol: [Register], [Authorise],
    [ReadLine], [CreateToken], [NewStatus], each at most once, a prefix of
    it when a step fails. *)
Definition register_step (n : nat) (c : Call) : bool :=
  match n, c with
  | 0, Register _ | 1, Authorise | 2, ReadLine | 3, CreateToken _
  | 4, NewStatus _ _ => true
  | _, _ => false
  end.

Fixpoint follows (step : nat -> Call -> bool) (n : nat) (cs : list Call) : bool :=
  match cs with
  | [] => true
  | c :: cs' => step n c && follows step (S n) cs'
  end.

(** The stored-credentials path makes one call: [NewStatus]. *)
Definition configured_step (n : nat) (c : Call) : bool :=
  match n, c with
  | 0, NewStatus _ _ => true
  | _, _ => false
  end.

Definition is_post (c : Call) : bool :=
  match c with NewStatus _ _ => true | _ => false end.

(** [s] is the narrative of a city of the catalog that [load_data] reads. *)
Definition narrates {R : Type} (w : World R) (s : string) : Prop :=
  exists cities city, fst (load_data (csv w)) = Ok cities /\ In city cities /\
    location_text cities city = Some s.

(** The first of [ks] that the environment lacks. *)
Definition first_missing {R : Type} (w : World R) (ks : list string) : option string :=
  find (fun k => match env_var w k with None => true | Some _ => false end) ks.

Lemma calls_app (t1 t2 : list Event) : calls (t1 ++ t2) = calls t1 ++ calls t2.
Proof. induction t1 as [|[] t IH]; simpl; rewrite ?IH; reflexivity. Qed.

Lemma calls_log (log : list (Stream * string)) :
  calls (map (fun l => Print (fst l) (snd l)) log) = [].
Proof. induction log; simpl; auto. Qed.

#[export] Hint Rewrite calls_app calls_log app_nil_r : geo_rw.

Lemma choose_some_in {R A : Type} `{RandomSource R} (l : list A) (rng : R) (x : A) :
  fst (choose l rng) = Some x -> In x l.
Proof.
  unfold choose. destruct l as [|c cs]; [discriminate|].
  destruct (random_range _ rng) as [i r]. apply nth_error_In.
Qed.

Lemma random_location_some {R : Type} `{RandomSource R} (cities : list City) (rng : R)
    (s : string) :
  fst (random_location cities rng) = Some s ->
  exists city, In city cities /\ location_text cities city = Some s.
Proof.
  unfold random_location. destruct (choose cities rng) as [o r] eqn:E.
  destruct o as [city|]; simpl; [|discriminate]. intros Hs. exists city.
  split; [|exact Hs]. apply (choose_some_in cities rng). rewrite E. reflexivity.
Qed.

(** [random_location_io] makes no call, and what it returns is a narrative
    of the catalog. *)
Lemma random_location_io_spec {R : Type} `{RandomSource R} (w : World R) :
  calls (fst (random_location_io w)) = [] /\
  forall s, snd (random_location_io w) = Ok s -> narrates w s.
Proof.
  unfold random_location_io. destruct (load_data (csv w)) as [res log] eqn:E.
  destruct res as [cs|e]; cbn [bind lift ret panic fst snd].
  - destruct (fst (random_location cs (rng w))) as [s|] eqn:Es; cbn;
      autorewrite with geo_rw; split; try reflexivity; intros s' Hs; try discriminate.
    injection Hs as <-. destruct (random_location_some _ _ _ Es) as (city & Hin & Et).
    exists cs, city. rewrite E. auto.
  - autorewrite with geo_rw. split; [reflexivity|discriminate].
Qed.

(** [load_data] returns the cities of the rows that deserialised, when
    there is one. *)
Lemma load_data_ok (rows : list (result CsvRecord string)) :
  ok_records rows <> [] -> fst (load_data (Opened rows)) = Ok (map from_record (ok_records rows)).
Proof.
  intros Hne. unfold load_data. rewrite load_rows_cities. simpl.
  destruct (ok_records rows); [congruence|reflexivity].
Qed.

(** Over a catalog without NaN, [random_location_io] returns a text. *)
Lemma random_location_io_ok {R : Type} `{RandomSourceLaws R} (w : World R)
    (rows : list (result CsvRecord string)) :
  csv w = Opened rows -> ok_records rows <> [] ->
  Forall (fun c => finite_city c = true) (map from_record (ok_records rows)) ->
  exists t s, random_location_io w = (t, Ok s).
Proof.
  intros Hcsv Hne Hfin. set (cs := map from_record (ok_records rows)) in Hfin.
  assert (Hcs : cs <> []) by (unfold cs; destruct (ok_records rows); [congruence|discriminate]).
  destruct (choose_in cs (rng w) Hcs) as (city & _ & Ec).
  destruct (location_text_some cs Hfin city) as (text & Et).
  pose proof (random_location_choose cs (rng w) city Ec) as Er. rewrite Et in Er.
  pose proof (load_data_ok rows Hne) as El. rewrite <- Hcsv in El.
  unfold random_location_io. destruct (load_data (csv w)) as [res log].
  cbn [fst] in El. subst res. cbn [bind lift ret]. fold cs. rewrite Er. cbn. eauto.
Qed.

(** [t] ends with [e]. *)
Definition ends_with (t : list Event) (e : Event) : Prop := exists pre, t = pre ++ [e].

Lemma ends_with_single (e : Event) : ends_with [e] e.
Proof. exists []. reflexivity. Qed.

Lemma ends_with_cons (x e : Event) (t : list Event) : ends_with t e -> ends_with (x :: t) e.
Proof. intros [pre ->]. exists (x :: pre). reflexivity. Qed.

Lemma ends_with_app (t1 t2 : list Event) (e : Event) :
  ends_with t2 e -> ends_with (t1 ++ t2) e.
Proof. intros [pre ->]. exists (t1 ++ pre). apply app_assoc. Qed.

#[export] Hint Resolve ends_with_single ends_with_cons ends_with_app : geo.

(** Case analysis on the answers of the world, in the order the program
    asks for them. *)
Ltac world_case :=
  match goal with
  | |- context [env_var ?w ?s] => destruct (env_var w s) eqn:?
  | |- context [registration_new ?w ?b] => destruct (registration_new w b) eqn:?
  | |- context [register ?w ?b] => destruct (register w b) eqn:?
  | |- context [authorise ?w] => destruct (authorise w) eqn:?
  | |- context [stdin_line ?w] => destruct (stdin_line w) eqn:?
  | |- context [create_access_token ?w ?c] => destruct (create_access_token w c) eqn:?
  | |- context [from_data ?w ?d] => destruct (from_data w d) eqn:?
  | |- context [random_location_io ?w] =>
      let Hc := fresh "Hc" in let Hn := fresh "Hn" in
      destruct (random_location_io_spec w) as [Hc Hn];
      destruct (random_location_io w) as [?t [?s|?p]] eqn:?; cbn [fst snd] in Hc, Hn
  | |- context [new_status ?w ?d ?s] => destruct (new_status w d s) eqn:?
  end.

(** Runs a client to the end of each of its paths. *)
Ltac run := unfold env, lift, println, emit, panic, ret;
  repeat (simpl; world_case); simpl; autorewrite with geo_rw;
  repeat match goal with H : calls ?t = [] |- context [calls ?t] => rewrite H end; simpl.

(** Closes the goals on the calls of a run: a call found in the trace is
    matched with the one the run made. *)
Ltac close_calls :=
  repeat split; try reflexivity; intros;
  repeat match goal with H : _ \/ _ |- _ => destruct H as [H|H] end;
  try discriminate; try contradiction;
  repeat match goal with
  | H : Register _ = Register _ |- _ => injection H as <-
  | H : CreateToken _ = CreateToken _ |- _ => injection H as <-
  | H : NewStatus _ _ = NewStatus _ _ |- _ => injection H as <- <-
  end;
  try match goal with |- exists c, _ /\ create_access_token _ c = Ok _ /\ _ =>
        eexists; split; cycle 1; [split; [eassumption|]|simpl; auto 10] end;
  try match goal with Hn : forall s, Ok ?s0 = Ok s -> narrates _ s |- narrates _ ?s0 =>
        apply Hn; reflexivity end;
  eauto.

(** ** What the clients do *)

Section Clients.
Context {R : Type} `{RandomSource R}.
Variable w : World R.

(** The stored-credentials path of the newer client, when everything
    succeeds: one post, of a narrative, and ["Done!"] last. *)
Lemma client2_main_ok (rows : list (result CsvRecord string)) (id b sec tok : string) :
  RandomSourceLaws R ->
  env_var w "CLIENT_ID" = Some id -> env_var w "BASE" = Some b ->
  env_var w "CLIENT_SECRET" = Some sec -> env_var w "TOKEN" = Some tok ->
  csv w = Opened rows -> ok_records rows <> [] ->
  Forall (fun c => finite_city c = true) (map from_record (ok_records rows)) ->
  (forall d s, new_status w d s = Ok tt) ->
  exists t s, Client2.main w = (t, Ok tt) /\
    calls t = [NewStatus {| base := b; client_id := id; client_secret := sec;
                            redirect := oob; token := tok |} s] /\
    narrates w s /\ ends_with t (Print Stdout "Done!").
Proof.
  intros HL Hid Hb Hs Ht Hcsv Hne Hfin Hpost.
  destruct (random_location_io_ok w rows Hcsv Hne Hfin) as (t0 & s0 & Er).
  unfold Client2.main, Client2.from_configuration. run; try congruence;
    try (match goal with E : new_status _ _ _ = Err _ |- _ =>
           rewrite Hpost in E; discriminate end).
  repeat match goal with E : Some _ = Some _ |- _ => injection E as E; subst end.
  do 2 eexists. split; [reflexivity|]. split; [simpl; autorewrite with geo_rw; rewrite Hc; reflexivity|].
  split; [apply Hn; reflexivity|]. eauto 20 with geo.
Qed.
(** C31: the newer client with stored credentials posts: when the
    environment holds the four variables, the catalog has a row and no
    NaN, and the server accepts the status, [main] ends normally, its only
    call is one [NewStatus] with the configured credentials and the
    narrative of a city of the catalog, and the last line printed is
    ["Done!"]. *)
Theorem client2_main_posts (rows : list (result CsvRecord string)) (id b sec tok : string) :
  RandomSourceLaws R ->
  env_var w "CLIENT_ID" = Some id -> env_var w "BASE" = Some b ->
  env_var w "CLIENT_SECRET" = Some sec -> env_var w "TOKEN" = Some tok ->
  csv w = Opened rows -> ok_records rows <> [] ->
  Forall (fun c => finite_city c = true) (map from_record (ok_records rows)) ->
  (forall d s, new_status w d s = Ok tt) ->
  exists t s, Client2.main w = (t, Ok tt) /\
    calls t = [NewStatus {| base := b; client_id := id; client_secret := sec;
                            redirect := oob; token := tok |} s] /\
    narrates w s /\ ends_with t (Print Stdout "Done!").
Proof. apply client2_main_ok. Qed.

(** C32: whatever the world answers, each client posts at most once, and
    what it posts is the narrative of a city of the catalog it loaded. *)
Theorem clients_post_narratives :
  (forall c, c = calls (fst (Client2.main w)) \/ c = calls (fst (Client1.main w)) ->
     length (filter is_post c) <= 1 /\
     forall d s, In (NewStatus d s) c -> narrates w s).
Proof.
  intros c [->| ->]; unfold Client2.main, Client1.main, Client2.from_configuration,
    Client2.register_and_post, Client1.from_configuration, Client1.register_and_post;
    run; close_calls.
Qed.

(** C33: the registration path calls the server in the order of the
    OAuth protocol ([Register], [Authorise], then the read of the code,
    [CreateToken], [NewStatus]), each at most once and no call after a
    failed step; it registers at the configured [BASE], and posts with the
    credentials [create_access_token] returned for a code it sent, the
    narrative of a city of the catalog. *)
Theorem register_and_post_protocol :
  forall cs, cs = calls (fst (Client2.register_and_post w)) \/
             cs = calls (fst (Client1.register_and_post w)) ->
  follows register_step 0 cs = true /\
  (forall b, In (Register b) cs -> env_var w "BASE" = Some b) /\
  (forall d s, In (NewStatus d s) cs ->
     exists c, In (CreateToken c) cs /\ create_access_token w c = Ok d /\ narrates w s).
Proof.
  intros cs [->| ->]; unfold Client2.register_and_post, Client1.register_and_post;
    run; close_calls.
Qed.

(** C34: a missing variable stops [from_configuration] before anything is
    printed or sent: both clients panic naming the first of [BASE],
    [CLIENT_ID], [CLIENT_SECRET], [TOKEN] that is not set. *)
Theorem from_configuration_missing_env (k : string) :
  first_missing w ["BASE"; "CLIENT_ID"; "CLIENT_SECRET"; "TOKEN"] = Some k ->
  Client2.from_configuration w = ([], Err (Panicked ("must have `" ++ k ++ "` definded")%string)) /\
  Client1.from_configuration w = ([], Err (Panicked ("must have `" ++ k ++ "` definded")%string)).
Proof.
  unfold first_missing, Client2.from_configuration, Client1.from_configuration.
  run; intros E; try discriminate; injection E as <-; split; reflexivity.
Qed.

(** C35: the code sent for the access token: the newer client sends the
    line read from the terminal trimmed, the older one the line as read,
    its line feed included. *)
Theorem create_token_code (c : string) :
  (In (CreateToken c) (calls (fst (Client2.register_and_post w))) ->
     exists line, stdin_line w = Ok line /\ c = trim line) /\
  (In (CreateToken c) (calls (fst (Client1.register_and_post w))) ->
     stdin_line w = Ok c).
Proof.
  unfold Client2.register_and_post, Client1.register_and_post. split; run; close_calls.
Qed.
End Clients.

(** ** Witnesses: a world built on the sample catalog *)

Definition Call_eq_dec (a b : Call) : {a = b} + {a <> b}.
Proof. repeat decide equality. Defined.

(** The CSV row of a city. *)
Definition to_record (c : City) : CsvRecord := {|
  DataLoader.city := name c; _city_ascii := name c;
  DataLoader.latitude := City.latitude c; DataLoader.longitude := City.longitude c;
  DataLoader.population := City.population c; DataLoader.country := City.country c;
  _iso2 := ""; _iso3 := ""; DataLoader.province := City.province c |}.

Definition sample_rows : list (result CsvRecord string) :=
  map (fun c => Ok (to_record c)) SAMPLE_DATA.

Definition sample_env (k : string) : option string :=
  if String.eqb k "BASE" then Some "https://mastodon.social"
  else if String.eqb k "CLIENT_ID" then Some "id"
  else if String.eqb k "CLIENT_SECRET" then Some "secret"
  else if String.eqb k "TOKEN" then Some "token"
  else None.

Definition sample_data : Data := {|
  base := "https://mastodon.social"; client_id := "id"; client_secret := "secret";
  redirect := oob; token := "token" |}.

#[local] Instance counter_rng : RandomSource nat := fun n r => (Nat.modulo r n, S r).

#[local] Instance counter_rng_laws : RandomSourceLaws nat.
Proof. intros n r Hn. apply Nat.mod_upper_bound. lia. Qed.

(** Everything succeeds; the user types [abc123] and a line feed. *)
Definition sample_world (env : string -> option string) : World nat := {|
  env_var := env; csv := Opened sample_rows; rng := 8;
  registration_new := fun _ => Ok tt; register := fun _ => Ok tt;
  authorise := Ok "https://mastodon.social/oauth/authorize";
  stdin_line := Ok ("abc123" ++ nl)%string;
  create_access_token := fun c => Ok {| base := "https://mastodon.social";
    client_id := "id"; client_secret := "secret"; redirect := oob; token := c |};
  from_data := fun _ => Ok tt; new_status := fun _ _ => Ok tt |}.

Lemma client2_main_posts_witness :
  exists t s, Client2.main (sample_world sample_env) = (t, Ok tt) /\
    calls t = [NewStatus sample_data s] /\
    narrates (sample_world sample_env) s /\ ends_with t (Print Stdout "Done!").
Proof.
  apply (client2_main_posts (sample_world sample_env) sample_rows);
    try reflexivity; try exact counter_rng_laws.
  - vm_compute. discriminate.
  - apply finite_city_check. by_compute.
Defined.

Lemma clients_post_narratives_witness :
  length (filter is_post (calls (fst (Client2.main (sample_world sample_env))))) <= 1 /\
  forall d s, In (NewStatus d s) (calls (fst (Client2.main (sample_world sample_env)))) ->
    narrates (sample_world sample_env) s.
Proof. apply clients_post_narratives. left. reflexivity. Defined.

Lemma register_and_post_protocol_witness :
  let cs := calls (fst (Client1.register_and_post (sample_world sample_env))) in
  follows register_step 0 cs = true /\
  (forall b, In (Register b) cs -> env_var (sample_world sample_env) "BASE" = Some b) /\
  (forall d s, In (NewStatus d s) cs ->
     exists c, In (CreateToken c) cs /\
       create_access_token (sample_world sample_env) c = Ok d /\
       narrates (sample_world sample_env) s).
Proof. apply register_and_post_protocol. right. reflexivity. Defined.

(** Without [TOKEN] both clients stop at it. *)
Lemma from_configuration_missing_env_witness :
  Client2.from_configuration (sample_world (fun k => if String.eqb k "TOKEN" then None
                                                      else sample_env k))
  = ([], Err (Panicked ("must have `" ++ "TOKEN" ++ "` definded")%string)) /\
  Client1.from_configuration (sample_world (fun k => if String.eqb k "TOKEN" then None
                                                      else sample_env k))
  = ([], Err (Panicked ("must have `" ++ "TOKEN" ++ "` definded")%string)).
Proof. apply (from_configuration_missing_env _ "TOKEN"). reflexivity. Defined.

(** The newer client sends [abc123]; the older one [abc123] and the line
    feed. *)
Lemma create_token_code_witness :
  (exists line, stdin_line (sample_world sample_env) = Ok line /\ "abc123" = trim line) /\
  stdin_line (sample_world sample_env) = Ok ("abc123" ++ nl)%string.
Proof.
  split.
  - apply (proj1 (create_token_code (sample_world sample_env) "abc123")).
    apply (in_dec_In Call_eq_dec). by_compute.
  - apply (proj2 (create_token_code (sample_world sample_env) _)).
    apply (in_dec_In Call_eq_dec). by_compute.
Defined.
