(* ===== verification/Tests.v ===== *)
(** * The unit tests of [lib.rs]

    Each [#[test]] of [mod tests] as a check on the catalog [DATA] that
    returns [true] when the test passes: a panic of the code under test
    ([None]) fails it, [assert_eq!] compares the strings or the lists of
    names, [names.sort()] is [StableSort.sort_by] on [String.compare] (the
    byte order of Rust's [str]), and [assert_approx_eq!] is a difference
    below [1.0e-6].  The tests read the global [DATA], here the [Section]
    variable.

    The tests were written against the full [simplemaps] catalog, which is
    not part of the sources; on the sample catalog of [Samples] the tests
    of Pittsburgh and of [opposite_longitude] pass, and those that list a
    whole band or narrate Jaque need the full file.  The theorem of this
    file shows that each full-text test passes exactly when the two
    sentence tests of the same city pass, on any catalog whose names hold
    no line feed: the greeting and the coordinate line do not depend on
    the catalog. *)

From Stdlib Require Import String Ascii List Bool QArith.
From S2P Require Import Prelude F64 City Samples StableSort Bands Ranking Directional Render Lines.
Import ListNotations.
Local Open Scope string_scope.

(** The [City] literals of the tests: population [0.0]. *)
Definition test_city (n : string) (lat lon : Q) (ctry prov : string) : City :=
  {| name := n; latitude := Num lat; longitude := Num lon; population := Num 0;
     country := ctry; province := prov |}.

Definition pittsburgh : City :=
  test_city "Pittsburgh" 40.4299986 (-79.99998539) "United States of America" "Pennsylvania".
Definition jaque : City :=
  test_city "Jaque" 7.518958353 (-78.16601465) "Panama" "Darién".

Definition test_lat : f64 := Num 40.4299986.
Definition test_long : f64 := Num (-79.99998539).

(** [cities.iter().map(|ref c| &c.name).collect()] *)
Definition names (cities : list City) : list string := map name cities.

(** [names.sort()] *)
Definition sort_names (ns : list string) : option (list string) :=
  sort_by (fun a b => Some (String.compare a b)) ns.

(** [assert_eq!] on two vectors of strings. *)
Fixpoint names_eqb (l1 l2 : list string) : bool :=
  match l1, l2 with
  | [], [] => true
  | x :: xs, y :: ys => String.eqb x y && names_eqb xs ys
  | _, _ => false
  end.

(** [assert_eq!] on the [String] a function returns; a panic fails. *)
Definition text_eqb (o : option string) (expected : string) : bool :=
  match o with Some s => String.eqb s expected | None => false end.

(** A check that may panic: the panic fails the test. *)
Definition passes (o : option bool) : bool :=
  match o with Some b => b | None => false end.

(** [assert_approx_eq!(a, b)]: [(a - b).abs() < 1.0e-6]. *)
Definition approx_eq (a b : f64) : bool := (fabs (a - b) <? Num (1 # 1000000))%f64.

Definition it_finds_longitude_on_other_side_of_the_world : bool :=
  let long := Num (-79.99998539) in
  approx_eq (opposite_longitude long) (Num 100.00001461) &&
  let long := (long * Num (-1))%f64 in
  approx_eq (opposite_longitude long) (Num (-100.00001461)).

Section Tests.
Variable DATA : list City.
Local Open Scope panic_scope.

Definition it_finds_cities_with_same_latitude : bool :=
  passes (ns <- sort_names (names (same_latitude DATA test_lat)) ;;
          Some (names_eqb ns
    ["Adapazari"; "Agdam"; "Alexandroupoli"; "Ali Bayramli"; "Allentown"; "Altoona";
     "Amasya"; "Andijon"; "Anxi"; "Aomori"; "Arcata"; "Artashat"; "Ashtarak"; "Aveiro";
     "Baku"; "Baotou"; "Beaver Falls"; "Berat"; "Bilecik"; "Bloomington"; "Bolu";
     "Boulder"; "Brindisi"; "Burlington"; "Bursa"; "Canakkale"; "Cankiri"; "Canton";
     "Castello"; "Changping"; "Chosan"; "Coimbra"; "Columbus"; "Corovode"; "Corum";
     "Covilha"; "Craig"; "Dandong"; "Datong"; "Dunhuang"; "Elko"; "Erseke"; "Eureka";
     "Fargona"; "Fengzhen"; "Fier"; "Fort Collins"; "Gadabay"; "Ganca"; "Gavarr";
     "Giresun"; "Gjirokaster"; "Goranboy"; "Goycay"; "Gramsh"; "Grand Island"; "Greeley";
     "Guadalajara"; "Guarda"; "Guliston"; "Gumushane"; "Gyumri"; "Hachinohe";
     "Hanggin Houqi"; "Harrisburg"; "Hirosaki"; "Hohhot"; "Ijevan"; "Izmit"; "Jinxi";
     "Jizzax"; "Johnstown"; "Kars"; "Katerini"; "Kearney"; "Khujand"; "Kimchaek";
     "Kimhyonggwon"; "Kirksville"; "Kokomo"; "Konibodom"; "Korce"; "Lafayette";
     "Lancaster"; "Lecce"; "Lima"; "Lincoln"; "Madrid"; "Mansfield"; "Marion"; "McCook";
     "Muncie"; "Naples"; "Navoi"; "New York"; "Newark"; "Olbia"; "Olmaliq"; "Osh";
     "Paterson"; "Peoria"; "Permet"; "Philadelphia"; "Pittsburgh"; "Pogradec";
     "Polygyros"; "Potenza"; "Provo"; "Qinhuangdao"; "Qoqon"; "Quincy"; "Redding";
     "Sakarya"; "Salerno"; "Salt Lake City"; "Sassari"; "Sinuiju"; "State College";
     "Sumqayt"; "Taedong"; "Taranto"; "Tepelene"; "Thessaloniki"; "Tokat"; "Trenton";
     "Turkmenbasy"; "Urbana"; "Vanadzor"; "Vernal"; "Viseu"; "Vlore"; "Wheeling";
     "Xuanhua"; "Yerevan"; "Yevlax"; "Yingkow"; "York"; "Zanesville"; "Zhangjiakou"])).

Definition it_filters_to_ten_by_population : bool :=
  passes (cities <- top_by_population (same_latitude DATA test_lat) ;;
          Some (names_eqb (names cities)
    ["New York"; "Philadelphia"; "Madrid"; "Baku"; "Naples"; "Pittsburgh"; "Datong";
     "Bursa"; "Jinxi"; "Hohhot"])).

Definition it_sorts_easterly : bool :=
  passes (cities <- top_by_population (same_latitude DATA test_lat) ;;
          cities <- sort_easterly cities test_long ;;
          Some (names_eqb (names cities)
    ["Philadelphia"; "New York"; "Madrid"; "Naples"; "Bursa"; "Baku"; "Hohhot"; "Datong";
     "Jinxi"; "Pittsburgh"])).

Definition it_creates_latitude_text : bool :=
  text_eqb (latitude_text DATA pittsburgh)
    ("If you fly along this latitude in an easterly direction, you will look down on Philadelphia, New York, Madrid, Naples, Bursa, Baku, Hohhot, Datong, Jinxi, Pittsburgh.").

Definition it_creates_latitude_text_for_small_cities : bool :=
  text_eqb (latitude_text DATA jaque)
    ("If you fly along this latitude in an easterly direction, you will look down on Bucaramanga, Cucuta, Bouake, Abeokuta, Ibadan, Oyo, Ife, Ado Ekiti, Ikare, Jaque.").

Definition it_finds_cities_with_same_longitude : bool :=
  passes (ns <- sort_names (names (same_longitude DATA test_long)) ;;
          Some (names_eqb ns
    ["Alor Setar"; "Ang Thong"; "Babahoyo"; "Balboa"; "Ban Houayxay"; "Barrie";
     "Beaver Falls"; "Blacksburg"; "Bukittinggi"; "Butterworth"; "Chainat"; "Charleston";
     "Chiang Rai"; "Chiclayo"; "Chitre"; "Chone"; "Chulucanas"; "Cienfuegos";
     "Clarksburg"; "Cobalt"; "Colon"; "Coral Gables"; "Coral Springs"; "Dali"; "Erie";
     "Esmeraldas"; "Ferrenafe"; "Florence"; "Fort Lauderdale"; "Fort Pierce";
     "George Town"; "Greensboro"; "Guayaquil"; "Hamilton"; "Hat Yai"; "Homestead";
     "Hua Hin"; "Kamphaeng Phet"; "Kanchanaburi"; "Kangar"; "Las Tablas"; "Lijiang";
     "Macara"; "Machala"; "Miami"; "Miami Beach"; "Milagro"; "Morgantown"; "Moron";
     "Motupe"; "Muisne"; "Nakhon Pathom"; "Nakhon Sawan"; "Nakhon Si Thammarat";
     "New Liskeard"; "Nonthaburi"; "Olmos"; "Orangeville"; "Pacasmayo"; "Padang";
     "Padangpanjang"; "Panama City"; "Parry Sound"; "Penonome"; "Phatthalung"; "Phayao";
     "Phetchaburi"; "Phichit"; "Phitsanulok"; "Phrae"; "Pimentel"; "Pinas"; "Pittsburgh";
     "Placetas"; "Portoviejo"; "Prachuap Khiri Khan"; "Ratchaburi"; "Roanoke";
     "Sagua la Grande"; "Salisbury"; "Samut Sakhon"; "Samut Songkhram"; "Santa Clara";
     "Satun"; "Sing Buri"; "Sukhothai"; "Sumter"; "Sungai Petani"; "Supham Buri";
     "Thung Song"; "Trang"; "Tumbes"; "Tura"; "Uthai Thani"; "Uttaradit"; "Vero Beach";
     "West Palm Beach"; "White Sulphur Springs"; "Winston-Salem"; "Zhangye"])).

Definition it_filters_longitude_cities_to_ten_by_population : bool :=
  passes (cities <- top_by_population (same_longitude DATA test_long) ;;
          Some (names_eqb (names cities)
    ["Miami"; "Guayaquil"; "George Town"; "Pittsburgh"; "Fort Lauderdale"; "Padang";
     "Panama City"; "West Palm Beach"; "Hamilton"; "Chiclayo"])).

Definition it_sorts_northerly : bool :=
  passes (cities <- top_by_population (same_longitude DATA test_long) ;;
          cities <- sort_northerly cities test_lat test_long ;;
          Some (names_eqb (names cities)
    ["Hamilton"; "North Pole"; "George Town"; "Padang"; "South Pole"; "Chiclayo";
     "Guayaquil"; "Panama City"; "Miami"; "Fort Lauderdale"; "West Palm Beach";
     "Pittsburgh"])).

Definition it_creates_longitude_text : bool :=
  text_eqb (longitude_text DATA pittsburgh)
    ("If you fly along this longitude starting north, you will look down on Hamilton, North Pole, George Town, Padang, South Pole, Chiclayo, Guayaquil, Panama City, Miami, Fort Lauderdale, West Palm Beach, Pittsburgh.").

Definition it_creates_longitude_text_for_small_cities : bool :=
  text_eqb (longitude_text DATA jaque)
    ("If you fly along this longitude starting north, you will look down on Raleigh, North Pole, Xining, Panzhihua, Kota Baharu, Kuala Lumpur, Shah Alam, Kelang, Malacca, Pekanbaru, South Pole, Jaque.").

Definition it_creates_full_text : bool :=
  text_eqb (location_text DATA pittsburgh)
    ("You are now in Pittsburgh, Pennsylvania, United States of America"
      ++ nl ++ "40°25'N 79°59'W"
      ++ nl ++ "If you fly along this latitude in an easterly direction, you will look down on Philadelphia, New York, Madrid, Naples, Bursa, Baku, Hohhot, Datong, Jinxi, Pittsburgh."
      ++ nl ++ "If you fly along this longitude starting north, you will look down on Hamilton, North Pole, George Town, Padang, South Pole, Chiclayo, Guayaquil, Panama City, Miami, Fort Lauderdale, West Palm Beach, Pittsburgh.").

Definition it_creates_full_text_for_small_cities : bool :=
  text_eqb (location_text DATA jaque)
    ("You are now in Jaque, Darién, Panama"
      ++ nl ++ "7°31'N 78°9'W"
      ++ nl ++ "If you fly along this latitude in an easterly direction, you will look down on Bucaramanga, Cucuta, Bouake, Abeokuta, Ibadan, Oyo, Ife, Ado Ekiti, Ikare, Jaque."
      ++ nl ++ "If you fly along this longitude starting north, you will look down on Raleigh, North Pole, Xining, Panzhihua, Kota Baharu, Kuala Lumpur, Shah Alam, Kelang, Malacca, Pekanbaru, South Pole, Jaque.").
End Tests.

(** ** What the tests check *)

Lemma location_text_eq (DATA : list City) (city : City) (lat lon : string) :
  latitude_text DATA city = Some lat -> longitude_text DATA city = Some lon ->
  location_text DATA city =
  Some ("You are now in " ++ city_display city ++ ", " ++ province city ++ ", "
        ++ country city ++ nl
        ++ latitude_in_degrees (latitude city) ++ " "
        ++ longitude_in_degrees (longitude city) ++ nl
        ++ lat ++ nl ++ lon).
Proof. intros El Eo. unfold location_text. rewrite El, Eo. reflexivity. Qed.

(** A full-text check against [expected] passes exactly when the two
    sentence checks against its last two lines do, when no name holds a
    line feed: [expected] is the text of the city with those sentences. *)
Lemma full_text_check (DATA : list City) (city : City) (el eo expected : string) :
  Forall (fun c => has_lf (name c) = false) DATA ->
  has_lf (name city) = false -> has_lf (province city) = false ->
  has_lf (country city) = false ->
  split_lines expected =
    [("You are now in " ++ city_display city ++ ", " ++ province city ++ ", "
      ++ country city);
     (latitude_in_degrees (latitude city) ++ " " ++ longitude_in_degrees (longitude city));
     el; eo] ->
  ("You are now in " ++ city_display city ++ ", " ++ province city ++ ", "
   ++ country city ++ nl
   ++ latitude_in_degrees (latitude city) ++ " "
   ++ longitude_in_degrees (longitude city) ++ nl
   ++ el ++ nl ++ eo) = expected ->
  text_eqb (location_text DATA city) expected =
  text_eqb (latitude_text DATA city) el && text_eqb (longitude_text DATA city) eo.
Proof.
  intros Hn Hc Hp Hy Hsplit Hfull.
  destruct (latitude_text DATA city) as [lat|] eqn:El;
    [|unfold location_text; rewrite El; reflexivity].
  destruct (longitude_text DATA city) as [lon|] eqn:Eo;
    [|unfold location_text; rewrite El, Eo; rewrite andb_false_r; reflexivity].
  pose proof (location_text_eq DATA city lat lon El Eo) as Et.
  destruct (location_text_split DATA city _ Hn Hc Hp Hy Et)
    as (lat' & lon' & El' & Eo' & Hs).
  rewrite El in El'. rewrite Eo in Eo'. injection El' as <-. injection Eo' as <-.
  rewrite Et. cbn [text_eqb].
  destruct (String.eqb_spec lat el) as [<-|Hl]; destruct (String.eqb_spec lon eo) as [<-|Ho];
    cbn [andb]; [rewrite Hfull; apply String.eqb_refl| | |];
    apply String.eqb_neq; intros Heq; rewrite Heq, Hsplit in Hs;
    injection Hs; intros; congruence.
Qed.

(** On any catalog whose city names hold no line feed, each
    full-text test of [lib.rs] ([it_creates_full_text] and its Jaque
    variant) passes exactly when the latitude and the longitude text tests
    of the same city pass: the greeting and the coordinate line
    ([40°25'N 79°59'W], [7°31'N 78°9'W]) are right whatever the catalog. *)
Theorem full_text_tests_iff (DATA : list City) :
  Forall (fun c => has_lf (name c) = false) DATA ->
  it_creates_full_text DATA =
    it_creates_latitude_text DATA && it_creates_longitude_text DATA /\
  it_creates_full_text_for_small_cities DATA =
    it_creates_latitude_text_for_small_cities DATA &&
    it_creates_longitude_text_for_small_cities DATA.
Proof.
  intros Hn. split; apply full_text_check; try exact Hn; by_compute.
Qed.

(** ** The tests on the sample catalog *)

(** The Pittsburgh tests and the [opposite_longitude] test pass on the
    sample catalog; the tests listing whole bands and the Jaque tests need
    the full file. *)
Lemma sample_catalog_tests :
  it_finds_longitude_on_other_side_of_the_world = true /\
  it_filters_to_ten_by_population SAMPLE_DATA = true /\
  it_sorts_easterly SAMPLE_DATA = true /\
  it_creates_latitude_text SAMPLE_DATA = true /\
  it_filters_longitude_cities_to_ten_by_population SAMPLE_DATA = true /\
  it_sorts_northerly SAMPLE_DATA = true /\
  it_creates_longitude_text SAMPLE_DATA = true /\
  it_creates_full_text SAMPLE_DATA = true /\
  it_finds_cities_with_same_latitude SAMPLE_DATA = false /\
  it_creates_latitude_text_for_small_cities SAMPLE_DATA = false.
Proof. repeat split; by_compute. Qed.
